(** * CSVfilter: the filter expression evaluator and the paginated row filter

    A shallow embedding of [main.py]: [parse_filter_expression],
    [eval_expression], [convert_value], [filter_rows],
    [read_csv_with_filter], [save_filtered_data] and the loop over
    [filters], together with the parts of the Python run time
    they rest on (the values a filter can compute, the built-ins [int],
    [float], [len], [all], [any], the rich comparisons of module [operator],
    and the expression parser of module [ast]).

    Conventions of the model:
    - a text is a [string] of ASCII characters; characters above 127 are
      neither digits nor white space;
    - a Python [float] is a binary64 number, written as a [spec_float] with
      precision 53 and maximal exponent 1024;
    - a computation that may raise is a [result]: [Ok v] or [Raise e];
    - an [int] has no bound, and [int] reads a text of any length (the limit
      of the interpreter on the number of digits is left out);
    - a row of [csv.DictReader] is a finite map from field names to raw
      field texts, and the reader is the list of the rows it will yield:
      the rows of the records that have as many cells as the header. The
      dict of a shorter or of a longer record, which holds a [None] value or
      the key [None], is not modelled. *)

From Stdlib Require Import ZArith String Ascii List Lia.
From Stdlib Require Import Floats.SpecFloat.
From stdpp Require Import base option list strings pretty gmap.

Local Open Scope string_scope.

(** ** Exceptions and results *)

Inductive exn_class :=
  | ValueError | TypeError | AttributeError | IndexError | KeyError
  | OverflowError.

(** An exception is its class and its message. The source writes the messages
    of the two exceptions it raises itself; the messages of the exceptions the
    interpreter raises are left empty. *)
Record exn := Exn { exn_cls : exn_class; exn_msg : string }.

Definition interp_error (c : exn_class) : exn := Exn c EmptyString.

Inductive result (A : Type) :=
  | Ok (a : A)
  | Raise (e : exn).
Arguments Ok {A} a.
Arguments Raise {A} e.

#[global] Instance result_ret : MRet result := fun A a => Ok a.
#[global] Instance result_bind : MBind result := fun A B f m =>
  match m with
  | Ok a => f a
  | Raise e => Raise e
  end.

#[global] Instance exn_class_eq_dec : EqDecision exn_class.
Proof. solve_decision. Defined.

(** [try: body except cls: handler]: the handler runs when the body raises an
    exception of class [cls], any other exception goes through. *)
Definition try_except {A} (body : result A) (cls : exn_class)
    (handler : result A) : result A :=
  match body with
  | Ok a => Ok a
  | Raise e => if decide (exn_cls e = cls) then handler else Raise e
  end.

(** ** Values *)

Definition prec : Z := 53.
Definition emax : Z := 1024.

Inductive object :=
  | VNone
  | VBool (b : bool)
  | VInt (z : Z)
  | VFloat (f : spec_float)
  | VStr (s : string).

(** Truth value of an object, as [if], [all] and [any] test it. *)
Definition truthy (v : object) : bool :=
  match v with
  | VNone => false
  | VBool b => b
  | VInt z => negb (Z.eqb z 0)
  | VFloat (S754_zero _) => false
  | VFloat _ => true
  | VStr s => negb (String.eqb s EmptyString)
  end.

(** ** Texts of numbers *)

Definition code (c : ascii) : nat := nat_of_ascii c.

(** White space that [int] and [float] skip around the text of a number: the
    characters 9 to 13 and the blank. *)
Definition is_space (c : ascii) : bool :=
  let n := code c in
  (Nat.leb 9 n && Nat.leb n 13) || Nat.eqb n 32.

Definition is_digit (c : ascii) : bool :=
  let n := code c in Nat.leb 48 n && Nat.leb n 57.

Definition digit_val (c : ascii) : Z := Z.of_nat (code c - 48).

Definition is_char (n : nat) (c : ascii) : bool := Nat.eqb (code c) n.

Definition underscore : nat := 95.

Definition lower (c : ascii) : ascii :=
  let n := code c in
  if Nat.leb 65 n && Nat.leb n 90 then ascii_of_nat (n + 32) else c.

Fixpoint drop_spaces (cs : list ascii) : list ascii :=
  match cs with
  | c :: cs' => if is_space c then drop_spaces cs' else cs
  | [] => []
  end.

Definition strip (cs : list ascii) : list ascii :=
  rev (drop_spaces (rev (drop_spaces cs))).

(** Underscores in the text of a number: each one stands after a digit and
    before a digit; they are removed. [prev] is the character before [cs]. *)
Fixpoint remove_underscores (prev : option ascii) (cs : list ascii)
    : option (list ascii) :=
  let after_digit :=
    match prev with Some p => is_digit p | None => false end in
  let after_underscore :=
    match prev with Some p => is_char underscore p | None => false end in
  match cs with
  | [] => if after_underscore then None else Some []
  | c :: cs' =>
      if is_char underscore c then
        if after_digit then remove_underscores (Some c) cs' else None
      else if after_underscore && negb (is_digit c) then None
      else cs'' ← remove_underscores (Some c) cs'; Some (c :: cs'')
  end.

(** The longest prefix of digits, and what follows it. *)
Fixpoint span_digits (cs : list ascii) : list ascii * list ascii :=
  match cs with
  | c :: cs' =>
      if is_digit c
      then let '(ds, rest) := span_digits cs' in (c :: ds, rest)
      else ([], cs)
  | [] => ([], [])
  end.

Definition decimal (ds : list ascii) : Z :=
  fold_left (fun acc d => (10 * acc + digit_val d)%Z) ds 0%Z.

(** An optional sign; [true] is minus. *)
Definition read_sign (cs : list ascii) : bool * list ascii :=
  match cs with
  | c :: cs' =>
      if is_char 45 c then (true, cs')
      else if is_char 43 c then (false, cs')
      else (false, cs)
  | [] => (false, [])
  end.

(** [int(text)] in base 10: white space around, a sign, digits with single
    underscores between them. [None] is the [ValueError] of [int]. *)
Definition int_of_text (s : string) : option Z :=
  cs ← remove_underscores None (strip (list_ascii_of_string s));
  let '(neg, cs') := read_sign cs in
  match span_digits cs' with
  | (d :: ds, []) =>
      Some (if neg then (- decimal (d :: ds))%Z else decimal (d :: ds))
  | _ => None
  end.

(** The binary64 number nearest to [m * 10^e10] (ties to even), with the
    sign [s]. *)
Definition float_of_decimal (s : bool) (m : Z) (e10 : Z) : spec_float :=
  match m with
  | Zpos p =>
      match e10 with
      | Zneg k =>
          let '(q, e, l) :=
            SFdiv_core_binary prec emax (Zpos p) 0 (Z.pow_pos 10 k) 0 in
          binary_round_aux prec emax s q e l
      | _ => binary_round prec emax s (p * Z.to_pos (10 ^ e10)) 0
      end
  | _ => S754_zero s
  end.

(** An exponent part [e], [e+] or [e-] followed by digits, up to the end. *)
Definition read_exponent (cs : list ascii) : option Z :=
  match cs with
  | [] => Some 0%Z
  | c :: cs' =>
      if is_char 101 (lower c) then
        let '(neg, cs'') := read_sign cs' in
        match span_digits cs'' with
        | (d :: ds, []) =>
            Some (if neg then (- decimal (d :: ds))%Z else decimal (d :: ds))
        | _ => None
        end
      else None
  end.

(** A decimal number: digits, an optional point and digits, with one digit
    at least, and an optional exponent; the result is the mantissa and the
    power of ten. *)
Definition read_decimal (cs : list ascii) : option (Z * Z) :=
  let '(ip, rest) := span_digits cs in
  let '(fp, rest') :=
    match rest with
    | c :: r => if is_char 46 c then span_digits r else ([], rest)
    | [] => ([], [])
    end in
  match (ip ++ fp)%list with
  | [] => None
  | ds =>
      e ← read_exponent rest';
      Some (decimal ds, (e - Z.of_nat (length fp))%Z)
  end.

(** [float(text)]: white space around, underscores between digits, a sign,
    then [inf], [infinity], [nan] in any case or a decimal number. [None] is
    the [ValueError] of [float]. *)
Definition float_of_text (s : string) : option spec_float :=
  cs ← remove_underscores None (strip (list_ascii_of_string s));
  let '(neg, cs') := read_sign cs in
  let word := string_of_list_ascii (map lower cs') in
  if String.eqb word "inf" || String.eqb word "infinity"
  then Some (S754_infinity neg)
  else if String.eqb word "nan" then Some S754_nan
  else '(m, e10) ← read_decimal cs'; Some (float_of_decimal neg m e10).

(** ** Built-in functions on values *)

(** The integer part of a float, toward zero; [int] of a NaN raises
    [ValueError], [int] of an infinity raises [OverflowError]. *)
Definition float_trunc (f : spec_float) : result Z :=
  match f with
  | S754_nan => Raise (interp_error ValueError)
  | S754_infinity _ => Raise (interp_error OverflowError)
  | S754_zero _ => Ok 0%Z
  | S754_finite s m e => Ok (cond_Zopp s (Z.shiftl (Zpos m) e))
  end.

(** [int(value)] *)
Definition py_int (v : object) : result object :=
  match v with
  | VNone => Raise (interp_error TypeError)
  | VBool b => Ok (VInt (if b then 1 else 0)%Z)
  | VInt z => Ok (VInt z)
  | VFloat f => z ← float_trunc f; Ok (VInt z)
  | VStr s =>
      match int_of_text s with
      | Some z => Ok (VInt z)
      | None => Raise (interp_error ValueError)
      end
  end.

(** The float nearest to an integer; one that rounds beyond the largest
    float raises [OverflowError]. *)
Definition float_of_int (z : Z) : result spec_float :=
  match binary_normalize prec emax z 0 false with
  | S754_infinity _ => Raise (interp_error OverflowError)
  | f => Ok f
  end.

(** [float(value)] *)
Definition py_float (v : object) : result object :=
  match v with
  | VNone => Raise (interp_error TypeError)
  | VBool b => f ← float_of_int (if b then 1 else 0)%Z; Ok (VFloat f)
  | VInt z => f ← float_of_int z; Ok (VFloat f)
  | VFloat f => Ok (VFloat f)
  | VStr s =>
      match float_of_text s with
      | Some f => Ok (VFloat f)
      | None => Raise (interp_error ValueError)
      end
  end.

(** [len(value)]: only a string has a length among the values of a filter. *)
Definition py_len (v : object) : result object :=
  match v with
  | VStr s => Ok (VInt (Z.of_nat (String.length s)))
  | _ => Raise (interp_error TypeError)
  end.

(** [all(args)] and [any(args)] over a tuple of values. *)
Definition py_all (args : list object) : object := VBool (forallb truthy args).
Definition py_any (args : list object) : object := VBool (existsb truthy args).

(** ** Rich comparisons *)

(** [bool], [int] and [float] compare with one another as numbers. *)
Inductive number :=
  | NInt (z : Z)
  | NFloat (f : spec_float).

Definition as_number (v : object) : option number :=
  match v with
  | VBool b => Some (NInt (if b then 1 else 0)%Z)
  | VInt z => Some (NInt z)
  | VFloat f => Some (NFloat f)
  | _ => None
  end.

(** An integer against a float, exactly; [None] when the float is a NaN. *)
Definition int_float_compare (z : Z) (f : spec_float) : option comparison :=
  match f with
  | S754_nan => None
  | S754_infinity s => Some (if s then Gt else Lt)
  | S754_zero _ => Some (z ?= 0)%Z
  | S754_finite s m e =>
      match e with
      | Zneg k => Some (z * Z.pow_pos 2 k ?= cond_Zopp s (Zpos m))%Z
      | _ => Some (z ?= cond_Zopp s (Zpos m) * 2 ^ e)%Z
      end
  end.

Definition number_compare (a b : number) : option comparison :=
  match a, b with
  | NInt x, NInt y => Some (x ?= y)%Z
  | NFloat x, NFloat y => SFcompare x y
  | NInt x, NFloat y => int_float_compare x y
  | NFloat x, NInt y => CompOpp <$> int_float_compare y x
  end.

(** The order of two values: numbers as numbers, strings by their
    characters; [Raise] when the two are not ordered with one another, and
    [Ok None] for a NaN, which every order test answers [False]. *)
Definition py_compare (a b : object) : result (option comparison) :=
  match as_number a, as_number b with
  | Some x, Some y => Ok (number_compare x y)
  | _, _ =>
      match a, b with
      | VStr s, VStr t => Ok (Some (String.compare s t))
      | _, _ => Raise (interp_error TypeError)
      end
  end.

(** [operator.eq]: values that are not ordered with one another are
    unequal, except [None] and itself. *)
Definition operator_eq (a b : object) : result object :=
  match py_compare a b with
  | Ok c => Ok (VBool (bool_decide (c = Some Eq)))
  | Raise _ =>
      match a, b with
      | VNone, VNone => Ok (VBool true)
      | _, _ => Ok (VBool false)
      end
  end.

Definition operator_ne (a b : object) : result object :=
  v ← operator_eq a b; Ok (VBool (negb (truthy v))).

Definition operator_lt (a b : object) : result object :=
  c ← py_compare a b; Ok (VBool (bool_decide (c = Some Lt))).

Definition operator_le (a b : object) : result object :=
  c ← py_compare a b;
  Ok (VBool (bool_decide (c = Some Lt) || bool_decide (c = Some Eq))).

Definition operator_gt (a b : object) : result object :=
  c ← py_compare a b; Ok (VBool (bool_decide (c = Some Gt))).

Definition operator_ge (a b : object) : result object :=
  c ← py_compare a b;
  Ok (VBool (bool_decide (c = Some Gt) || bool_decide (c = Some Eq))).

(** ** Module [ast]: syntax trees and the expression parser *)

Module ast.

Inductive boolop := And | Or.

Inductive cmpop := Eq | NotEq | Lt | LtE | Gt | GtE | Is | IsNot | In | NotIn.

Inductive operator := Add | Sub | Mult | Div | FloorDiv | Mod | Pow.

Inductive unaryop := Not | UAdd | USub.

(** The node classes of expressions a filter text of the modelled grammar
    parses to. [Compare] keeps its operators and its comparators in two
    lists, as [ast.Compare] does. [Other] is a node of any other class of
    expression ([List], [Tuple], [Lambda], [IfExp] and so on), given by the
    name of its class; its fields are left out, the evaluator reads none of
    them. *)
#[warnings="-register-all"] Inductive expr :=
  | BoolOp (op : boolop) (values : list expr)
  | Compare (left : expr) (ops : list cmpop) (comparators : list expr)
  | Name (id : string)
  | Constant (v : object)
  | Call (func : expr) (args : list expr)
  | BinOp (left : expr) (op : operator) (right : expr)
  | UnaryOp (op : unaryop) (operand : expr)
  | Attribute (v : expr) (attr : string)
  | Subscript (v : expr) (slice : expr)
  | Other (cls : string).

(** The name of the class of a node, as [type(expr)] prints it. *)
Definition class_name (e : expr) : string :=
  match e with
  | BoolOp _ _ => "BoolOp"
  | Compare _ _ _ => "Compare"
  | Name _ => "Name"
  | Constant _ => "Constant"
  | Call _ _ => "Call"
  | BinOp _ _ _ => "BinOp"
  | UnaryOp _ _ => "UnaryOp"
  | Attribute _ _ => "Attribute"
  | Subscript _ _ => "Subscript"
  | Other cls => cls
  end.

(** *** The expression parser

    [parse python text] stands for [ast.parse(text, mode='eval').body],
    [None] being its [SyntaxError]. The model settles two kinds of texts by
    itself. It parses this part of the grammar of Python expressions: names,
    the constants [True], [False] and [None], decimal integers and floats,
    strings between quotes without escapes, parentheses, [or], [and], [not],
    chains of comparisons, the arithmetic operators, calls with positional
    arguments, attributes and subscripts. And it knows some texts for
    syntax errors: the empty text, a text that ends with an operator, a text
    with [=] outside every bracket. On every other text it gives the answer
    of [python], which stands for the parser of Python itself there (with
    [Other] for the nodes the model leaves out): a text the model does not
    settle is never held for a syntax error by the model. *)

Inductive token :=
  | T_NAME (s : string)
  | T_KEYWORD (s : string)
  | T_NUMBER (v : object)
  | T_STRING (s : string)
  | T_OP (s : string).

#[global] Instance token_eq_dec : EqDecision token.
Proof.
  assert (EqDecision spec_float) by solve_decision.
  assert (EqDecision object) by solve_decision.
  solve_decision.
Defined.

Definition keywords : list string :=
  ["False"; "None"; "True"; "and"; "as"; "assert"; "async"; "await";
   "break"; "class"; "continue"; "def"; "del"; "elif"; "else"; "except";
   "finally"; "for"; "from"; "global"; "if"; "import"; "in"; "is";
   "lambda"; "nonlocal"; "not"; "or"; "pass"; "raise"; "return"; "try";
   "while"; "with"; "yield"].

Definition is_name_start (c : ascii) : bool :=
  let n := code c in
  (Nat.leb 65 n && Nat.leb n 90) || (Nat.leb 97 n && Nat.leb n 122)
  || Nat.eqb n underscore.

Definition is_name_char (c : ascii) : bool := is_name_start c || is_digit c.

Fixpoint span_name (cs : list ascii) : list ascii * list ascii :=
  match cs with
  | c :: cs' =>
      if is_name_char c
      then let '(ns, rest) := span_name cs' in (c :: ns, rest)
      else ([], cs)
  | [] => ([], [])
  end.

(** The characters of a string up to the closing quote [q]; a backslash, a
    line end or the end of the text before it is not modelled, and neither
    is a quote right after the closing one (a string between three quotes,
    two strings side by side). *)
Fixpoint span_quoted (q : ascii) (cs : list ascii)
    : option (list ascii * list ascii) :=
  match cs with
  | [] => None
  | c :: cs' =>
      if Nat.eqb (code c) (code q) then Some ([], cs')
      else if is_char 92 c || is_char 10 c || is_char 13 c then None
      else '(s, rest) ← span_quoted q cs'; Some (c :: s, rest)
  end.

(** An exponent part of a number literal, when one starts at [cs]. *)
Definition lex_exponent (cs : list ascii) : option (Z * list ascii) :=
  match cs with
  | c :: cs' =>
      if is_char 101 (lower c) then
        let '(neg, cs'') := read_sign cs' in
        match span_digits cs'' with
        | (d :: ds, rest) =>
            Some (if neg then (- decimal (d :: ds))%Z else decimal (d :: ds),
                  rest)
        | _ => None
        end
      else None
  | [] => None
  end.

(** A number literal at the head of [cs]: a decimal integer (no leading zero
    unless it is zero) or a decimal float; a name character right after it
    is an error. *)
Definition lex_number (cs : list ascii) : option (token * list ascii) :=
  let '(ip, rest) := span_digits cs in
  let '(point, fp, rest1) :=
    match rest with
    | c :: r =>
        if is_char 46 c
        then let '(fp, r') := span_digits r in (true, fp, r')
        else (false, [], rest)
    | [] => (false, [], [])
    end in
  let '(ex, rest2) :=
    match lex_exponent rest1 with
    | Some (e, r) => (Some e, r)
    | None => (None, rest1)
    end in
  let followed :=
    match rest2 with c :: _ => is_name_char c | [] => false end in
  match (ip ++ fp)%list with
  | [] => None
  | ds =>
      if followed then None
      else if point || bool_decide (ex ≠ None) then
        Some (T_NUMBER (VFloat (float_of_decimal false (decimal ds)
                (default 0%Z ex - Z.of_nat (length fp)))), rest2)
      else
        match ip with
        | z :: _ :: _ =>
            if is_char 48 z && negb (Z.eqb (decimal ip) 0) then None
            else Some (T_NUMBER (VInt (decimal ip)), rest2)
        | _ => Some (T_NUMBER (VInt (decimal ip)), rest2)
        end
  end.

Definition two_char_ops : list string := ["=="; "!="; "<="; ">="; "//"; "**"].
Definition one_char_ops : list string :=
  ["("; ")"; "["; "]"; ","; "."; "<"; ">"; "+"; "-"; "*"; "/"; "%"; "="].

Definition lex_operator (cs : list ascii) : option (token * list ascii) :=
  match cs with
  | c1 :: c2 :: rest =>
      let s2 := string_of_list_ascii [c1; c2] in
      let s1 := string_of_list_ascii [c1] in
      if bool_decide (s2 ∈ two_char_ops) then Some (T_OP s2, rest)
      else if bool_decide (s1 ∈ one_char_ops) then Some (T_OP s1, c2 :: rest)
      else None
  | [c1] =>
      let s1 := string_of_list_ascii [c1] in
      if bool_decide (s1 ∈ one_char_ops) then Some (T_OP s1, []) else None
  | [] => None
  end.

(** One token at the head of [cs]. *)
Definition lex_token (cs : list ascii) : option (token * list ascii) :=
  match cs with
  | [] => None
  | c :: cs' =>
      if is_name_start c then
        let '(ns, rest) := span_name cs in
        let s := string_of_list_ascii ns in
        match rest with
        | q :: _ =>
            if is_char 39 q || is_char 34 q then None
            else Some (if bool_decide (s ∈ keywords)
                       then T_KEYWORD s else T_NAME s, rest)
        | [] => Some (if bool_decide (s ∈ keywords)
                      then T_KEYWORD s else T_NAME s, rest)
        end
      else if is_digit c then lex_number cs
      else if is_char 46 c &&
              match cs' with d :: _ => is_digit d | [] => false end
      then lex_number cs
      else if is_char 39 c || is_char 34 c then
        '(s, rest) ← span_quoted c cs';
        match rest with
        | q :: _ =>
            if is_char 39 q || is_char 34 q then None
            else Some (T_STRING (string_of_list_ascii s), rest)
        | [] => Some (T_STRING (string_of_list_ascii s), rest)
        end
      else lex_operator cs
  end.

Definition is_blank (c : ascii) : bool := is_char 32 c || is_char 9 c.

Fixpoint drop_blanks (cs : list ascii) : list ascii :=
  match cs with
  | c :: cs' => if is_blank c then drop_blanks cs' else cs
  | [] => []
  end.

(** The tokens of a text; every token takes one character at least, so the
    length of the text is fuel enough. *)
Fixpoint tokens (fuel : nat) (cs : list ascii) : option (list token) :=
  match drop_blanks cs with
  | [] => Some []
  | cs' =>
      match fuel with
      | O => None
      | S fuel' =>
          '(t, rest) ← lex_token cs';
          ts ← tokens fuel' rest;
          Some (t :: ts)
      end
  end.

(** A text that opens with a blank is an unexpected indent. *)
Definition tokenize (s : string) : option (list token) :=
  let cs := list_ascii_of_string s in
  match cs with
  | c :: _ => if is_blank c then None else tokens (length cs) cs
  | [] => tokens (length cs) cs
  end.

Definition parser : Type := list token → option (expr * list token).

Definition is_op (s : string) (t : token) : bool := bool_decide (t = T_OP s).
Definition is_kw (s : string) (t : token) : bool :=
  bool_decide (t = T_KEYWORD s).

(** [expect s ts]: the tokens after the operator [s]. *)
Definition expect (s : string) (ts : list token) : option (list token) :=
  match ts with
  | t :: r => if is_op s t then Some r else None
  | [] => None
  end.

(** Zero or more times the token [sep] and an operand. *)
Fixpoint sep_by (n : nat) (p : parser) (sep : token) (ts : list token)
    : option (list expr * list token) :=
  match n, ts with
  | S n', t :: r =>
      if bool_decide (t = sep) then
        '(e, r') ← p r;
        '(es, r'') ← sep_by n' p sep r';
        Some (e :: es, r'')
      else Some ([], ts)
  | S _, [] => Some ([], [])
  | O, _ => None
  end.

Definition sum_ops : list (string * operator) := [("+", Add); ("-", Sub)].
Definition term_ops : list (string * operator) :=
  [("*", Mult); ("/", Div); ("//", FloorDiv); ("%", Mod)].

Definition find_op (table : list (string * operator)) (t : token)
    : option operator :=
  snd <$> List.find (fun p => is_op (fst p) t) table.

(** Zero or more times an operator of [table] and an operand, grouped to
    the left. *)
Fixpoint binop_tail (n : nat) (table : list (string * operator)) (p : parser)
    (left : expr) (ts : list token) : option (expr * list token) :=
  match n, ts with
  | S n', t :: r =>
      match find_op table t with
      | Some op =>
          '(operand, r') ← p r;
          binop_tail n' table p (BinOp left op operand) r'
      | None => Some (left, ts)
      end
  | S _, [] => Some (left, [])
  | O, _ => None
  end.

(** A comparison operator at the head of the tokens. *)
Definition read_cmpop (ts : list token) : option (cmpop * list token) :=
  match ts with
  | t :: r =>
      if is_op "==" t then Some (Eq, r)
      else if is_op "!=" t then Some (NotEq, r)
      else if is_op "<" t then Some (Lt, r)
      else if is_op "<=" t then Some (LtE, r)
      else if is_op ">" t then Some (Gt, r)
      else if is_op ">=" t then Some (GtE, r)
      else if is_kw "in" t then Some (In, r)
      else
        match r with
        | t' :: r' =>
            if is_kw "not" t && is_kw "in" t' then Some (NotIn, r')
            else if is_kw "is" t && is_kw "not" t' then Some (IsNot, r')
            else if is_kw "is" t then Some (Is, r)
            else None
        | [] => if is_kw "is" t then Some (Is, r) else None
        end
  | [] => None
  end.

(** Zero or more times a comparison operator and an operand. *)
Fixpoint compare_tail (n : nat) (p : parser) (ts : list token)
    : option (list cmpop * list expr * list token) :=
  match n with
  | S n' =>
      match read_cmpop ts with
      | Some (op, r) =>
          '(e, r') ← p r;
          '(ops, es, r'') ← compare_tail n' p r';
          Some (op :: ops, e :: es, r'')
      | None => Some ([], [], ts)
      end
  | O => None
  end.

Inductive nonterminal :=
  | Disjunction | Conjunction | Inversion | Comparison | Sum | Term
  | Factor | Power | Primary | Atom
  | Trailers (acc : expr).

(** The recursive descent, one unit of fuel for each nonterminal entered. *)
Fixpoint descend (fuel : nat) (nt : nonterminal) (ts : list token)
    : option (expr * list token) :=
  match fuel with
  | O => None
  | S fuel' =>
      let n := S (length ts) in
      match nt with
      | Disjunction =>
          '(e, r) ← descend fuel' Conjunction ts;
          '(es, r') ← sep_by n (descend fuel' Conjunction) (T_KEYWORD "or") r;
          Some (match es with [] => e | _ => BoolOp Or (e :: es) end, r')
      | Conjunction =>
          '(e, r) ← descend fuel' Inversion ts;
          '(es, r') ← sep_by n (descend fuel' Inversion) (T_KEYWORD "and") r;
          Some (match es with [] => e | _ => BoolOp And (e :: es) end, r')
      | Inversion =>
          match ts with
          | t :: r =>
              if is_kw "not" t
              then '(e, r') ← descend fuel' Inversion r; Some (UnaryOp Not e, r')
              else descend fuel' Comparison ts
          | [] => None
          end
      | Comparison =>
          '(e, r) ← descend fuel' Sum ts;
          '(ops, es, r') ← compare_tail n (descend fuel' Sum) r;
          Some (match ops with [] => e | _ => Compare e ops es end, r')
      | Sum =>
          '(e, r) ← descend fuel' Term ts;
          binop_tail n sum_ops (descend fuel' Term) e r
      | Term =>
          '(e, r) ← descend fuel' Factor ts;
          binop_tail n term_ops (descend fuel' Factor) e r
      | Factor =>
          match ts with
          | t :: r =>
              if is_op "-" t
              then '(e, r') ← descend fuel' Factor r; Some (UnaryOp USub e, r')
              else if is_op "+" t
              then '(e, r') ← descend fuel' Factor r; Some (UnaryOp UAdd e, r')
              else descend fuel' Power ts
          | [] => None
          end
      | Power =>
          '(e, r) ← descend fuel' Primary ts;
          match r with
          | t :: r' =>
              if is_op "**" t
              then '(e', r'') ← descend fuel' Factor r';
                   Some (BinOp e Pow e', r'')
              else Some (e, r)
          | [] => Some (e, r)
          end
      | Primary =>
          '(e, r) ← descend fuel' Atom ts;
          descend fuel' (Trailers e) r
      | Trailers acc =>
          match ts with
          | t :: r =>
              if is_op "." t then
                match r with
                | T_NAME a :: r' => descend fuel' (Trailers (Attribute acc a)) r'
                | _ => None
                end
              else if is_op "(" t then
                match expect ")" r with
                | Some r' => descend fuel' (Trailers (Call acc [])) r'
                | None =>
                    '(a, r') ← descend fuel' Disjunction r;
                    '(args, r'') ←
                      sep_by n (descend fuel' Disjunction) (T_OP ",") r';
                    r''' ← expect ")" r'';
                    descend fuel' (Trailers (Call acc (a :: args))) r'''
                end
              else if is_op "[" t then
                '(i, r') ← descend fuel' Disjunction r;
                r'' ← expect "]" r';
                descend fuel' (Trailers (Subscript acc i)) r''
              else Some (acc, ts)
          | [] => Some (acc, [])
          end
      | Atom =>
          match ts with
          | T_NAME s :: r => Some (Name s, r)
          | T_NUMBER v :: r => Some (Constant v, r)
          | T_STRING s :: r =>
              match r with
              | T_STRING _ :: _ => None
              | _ => Some (Constant (VStr s), r)
              end
          | T_KEYWORD k :: r =>
              if String.eqb k "True" then Some (Constant (VBool true), r)
              else if String.eqb k "False" then Some (Constant (VBool false), r)
              else if String.eqb k "None" then Some (Constant VNone, r)
              else None
          | T_OP _ :: r =>
              r' ← expect "(" ts;
              '(e, r'') ← descend fuel' Disjunction r';
              r''' ← expect ")" r'';
              Some (e, r''')
          | [] => None
          end
      end
  end.

(** The tree of the tokens of a text of the modelled grammar. *)
Definition fragment (ts : list token) : option expr :=
  '(e, rest) ← descend (12 * S (length ts)) Disjunction ts;
  match rest with
  | [] => Some e
  | _ => None
  end.

(** A token no expression ends with. *)
Definition dangling (t : token) : bool :=
  match t with
  | T_OP s =>
      bool_decide (s ∈ ["=="; "!="; "<"; "<="; ">"; ">="; "+"; "-"; "*"; "/";
                        "//"; "%"; "**"])
  | T_KEYWORD s => bool_decide (s ∈ ["and"; "or"; "not"; "in"; "is"])
  | _ => false
  end.

(** Whether [=] stands outside every bracket; [depth] counts the brackets
    that are open. *)
Fixpoint assigns (depth : nat) (ts : list token) : bool :=
  match ts with
  | [] => false
  | t :: ts' =>
      if is_op "(" t || is_op "[" t then assigns (S depth) ts'
      else if is_op ")" t || is_op "]" t then assigns (pred depth) ts'
      else if is_op "=" t && Nat.eqb depth 0 then true
      else assigns depth ts'
  end.

(** Texts that are syntax errors for sure: no token at all, a last token
    that ends no expression, an assignment. *)
Definition surely_invalid (ts : list token) : bool :=
  match rev ts with
  | [] => true
  | t :: _ => dangling t || assigns 0 ts
  end.

Definition parse (python : string → option expr) (text : string)
    : option expr :=
  match tokenize text with
  | Some ts =>
      match fragment ts with
      | Some e => Some e
      | None => if surely_invalid ts then None else python text
      end
  | None => python text
  end.

(** A [python] that answers nothing, for the closed examples; none of their
    texts is put to it. *)
Definition no_answer : string → option expr := fun _ => None.

End ast.

(** A row of [csv.DictReader]: field name to raw field text. *)
Abbreviation Row := (gmap string string).

(** A generator expression is the list of the outcomes of its items, each
    one an [Ok] or a [Raise]; the consumer decides how many it asks for. *)
Abbreviation generator A := (list (result A)).

Section Model.

(** The parser of Python on the texts the model does not settle. *)
Variable python : string → option ast.expr.

(** ** The source: [main.py] *)

(** [row.get(key)]: the text of the field, [None] when the row has no such
    field. *)
Definition row_get (row : Row) (key : string) : object :=
  match row !! key with
  | Some s => VStr s
  | None => VNone
  end.

(** [parse_filter_expression]: a [SyntaxError] of the parser becomes a
    [ValueError] that quotes the text. *)
Definition parse_filter_expression (expression : string) : result ast.expr :=
  match ast.parse python expression with
  | Some body => Ok body
  | None =>
      Raise (Exn ValueError ("Invalid filter expression: " +:+ expression))
  end.

(** [convert_value]: [int], else [float], else the value itself; only a
    [ValueError] is caught. *)
Definition convert_value (value : object) : result object :=
  try_except (py_int value) ValueError
    (try_except (py_float value) ValueError (Ok value)).

(** The table [ops] at the classes of the comparison operators; the classes
    [Is], [IsNot], [In] and [NotIn] are no keys of it. *)
Definition ops (op : ast.cmpop) : result (object → object → result object) :=
  match op with
  | ast.Eq => Ok operator_eq
  | ast.NotEq => Ok operator_ne
  | ast.Lt => Ok operator_lt
  | ast.LtE => Ok operator_le
  | ast.Gt => Ok operator_gt
  | ast.GtE => Ok operator_ge
  | _ => Raise (interp_error KeyError)
  end.

(** The table [ops] at the classes [And] and [Or]: the two lambdas. *)
Definition ops_bool (op : ast.boolop) (args : list object) : object :=
  match op with
  | ast.And => py_all args
  | ast.Or => py_any args
  end.

(** A call that unpacks a generator into its arguments: every item is
    computed, in order, before the call; the first exception ends it. *)
Fixpoint star_args {A} (gen : generator A) : result (list A) :=
  match gen with
  | [] => Ok []
  | item :: gen' => a ← item; args ← star_args gen'; Ok (a :: args)
  end.

(** [all(generator)]: items are asked for up to the first false one. *)
Fixpoint all_generator (gen : generator object) : result object :=
  match gen with
  | [] => Ok (VBool true)
  | item :: gen' =>
      v ← item; if truthy v then all_generator gen' else Ok (VBool false)
  end.

(** The exception of the last branch of [eval_expression]; the class of the
    node is printed as Python 3.9 and later print it. *)
Definition unsupported (expr : ast.expr) : exn :=
  Exn ValueError
    ("Unsupported expression type: <class 'ast." +:+ ast.class_name expr
     +:+ "'>").

Fixpoint eval_expression (expr : ast.expr) (row : Row) : result object :=
  match expr with
  | ast.BoolOp op values =>
      args ← star_args (map (fun value => eval_expression value row) values);
      Ok (ops_bool op args)
  | ast.Compare left_ ops_ comparators =>
      left ← eval_expression left_ row;
      let comparisons :=
        map (fun '(op, right_) => f ← ops op; r ← right_; f left r)
          (combine ops_
             (map (fun right => eval_expression right row) comparators)) in
      all_generator comparisons
  | ast.Name id => convert_value (row_get row id)
  | ast.Constant v => Ok v
  | ast.Call func args =>
      match func with
      | ast.Name id =>
          if String.eqb id "len" then
            match args with
            | arg :: _ =>
                arg_value ← eval_expression arg row; py_len arg_value
            | [] => Raise (interp_error IndexError)
            end
          else Raise (unsupported expr)
      | _ => Raise (interp_error AttributeError)
      end
  | _ => Raise (unsupported expr)
  end.

(** [filter_rows] is a generator: the rows it yields, then the exception that
    ended it, if one did. *)
Fixpoint filter_rows (reader : list Row) (expression_tree : ast.expr)
    : list Row * option exn :=
  match reader with
  | [] => ([], None)
  | row :: reader' =>
      match eval_expression expression_tree row with
      | Raise e => ([], Some e)
      | Ok v =>
          let '(rows, e) := filter_rows reader' expression_tree in
          (if truthy v then row :: rows else rows, e)
      end
  end.

(** [for _ in range(n): next(reader, None)] *)
Fixpoint advance (n : nat) (reader : list Row) : list Row :=
  match n with
  | O => reader
  | S n' => advance n' (tail reader)
  end.

(** The second loop of [read_csv_with_filter]; [row_index] counts the rows
    of this loop from 0. *)
Fixpoint scan_rows (expression_tree : ast.expr) (end_index : Z)
    (row_index : nat) (reader : list Row) (filtered_data : list Row)
    : result (list Row) :=
  match reader with
  | [] => Ok filtered_data
  | row :: reader' =>
      if (end_index <=? Z.of_nat row_index)%Z then Ok filtered_data
      else
        v ← eval_expression expression_tree row;
        scan_rows expression_tree end_index (S row_index) reader'
          (if truthy v then filtered_data ++ [row] else filtered_data)%list
  end.

(** [read_csv_with_filter]; [reader] stands for the [csv.DictReader] over the
    file at [file_path], whose opening is left out. The source gives
    [page_number] the default 1 and [page_size] the default 50. *)
Definition read_csv_with_filter (reader : list Row) (filter_criteria : string)
    (page_number page_size : Z) : result (list Row) :=
  expression_tree ← parse_filter_expression filter_criteria;
  let start_index := ((page_number - 1) * page_size)%Z in
  let end_index := (start_index + page_size)%Z in
  let reader := advance (Z.to_nat start_index) reader in
  scan_rows expression_tree end_index 0 reader [].

(** [evaluate(compile(text), row)]: parse, then evaluate. *)
Definition evaluate_text (text : string) (row : Row) : result object :=
  tree ← parse_filter_expression text; eval_expression tree row.

(** ** Notions used to state the properties *)

(** Whether a row is kept by a filter: the tree evaluates on it to a true
    object. *)
Definition matches (tree : ast.expr) (row : Row) : bool :=
  match eval_expression tree row with
  | Ok v => truthy v
  | Raise _ => false
  end.

(** The rows the second loop of [read_csv_with_filter] looks at. *)
Definition scanned_rows (reader : list Row) (page_number page_size : Z)
    : list Row :=
  take (Z.to_nat ((page_number - 1) * page_size + page_size))
    (drop (Z.to_nat ((page_number - 1) * page_size)) reader).

(** The three kinds of objects with respect to comparison. *)
Inductive kind := KNone | KNumber | KString.

Definition kind_of (v : object) : kind :=
  match v with
  | VNone => KNone
  | VStr _ => KString
  | _ => KNumber
  end.

#[global] Instance kind_eq_dec : EqDecision kind.
Proof. solve_decision. Defined.

(** The four order operators. *)
Definition order_op (op : ast.cmpop) : bool :=
  match op with
  | ast.Lt | ast.LtE | ast.Gt | ast.GtE => true
  | _ => false
  end.

(** A node outside the five variants the evaluator handles: anything but a
    [BoolOp], a [Compare], a [Name], a [Constant] or a call of the name
    [len]. *)
Definition outside_variants (e : ast.expr) : bool :=
  match e with
  | ast.BoolOp _ _ | ast.Compare _ _ _ | ast.Name _ | ast.Constant _ => false
  | ast.Call (ast.Name id) _ => negb (String.eqb id "len")
  | _ => true
  end.

(** [reaches row e n]: evaluating [e] on [row] comes to evaluate the node
    [n]. Each child of a [BoolOp] is reached when the ones before it
    evaluate; the left operand of a [Compare] always is, and a comparator is
    reached when the left operand evaluates, every earlier pair compares to
    a true object and the operator of its own pair is a key of [ops]; the
    first argument of a call of [len] is reached. *)
Inductive reaches (row : Row) : ast.expr → ast.expr → Prop :=
  | reaches_here e : reaches row e e
  | reaches_boolop op before child after n :
      Forall (fun c => ∃ v, eval_expression c row = Ok v) before →
      reaches row child n →
      reaches row (ast.BoolOp op (before ++ child :: after)%list) n
  | reaches_left left_ ops_ comparators n :
      reaches row left_ n →
      reaches row (ast.Compare left_ ops_ comparators) n
  | reaches_comparator left_ lv ops_before op ops_after
        before right_ after n :
      eval_expression left_ row = Ok lv →
      Forall2 (fun o c => ∃ f r v,
                 ops o = Ok f ∧ eval_expression c row = Ok r ∧
                 f lv r = Ok v ∧ truthy v = true) ops_before before →
      (∃ f, ops op = Ok f) →
      reaches row right_ n →
      reaches row
        (ast.Compare left_ (ops_before ++ op :: ops_after)%list
           (before ++ right_ :: after)%list) n
  | reaches_len_argument arg rest n :
      reaches row arg n →
      reaches row (ast.Call (ast.Name "len") (arg :: rest)) n.

(** The chained comparison as the specification words it: each pair compares
    the right side of the pair before it with its own right side. *)
Fixpoint chained_pairs (left_value : object)
    (pairs : list (ast.cmpop * object)) : result object :=
  match pairs with
  | [] => Ok (VBool true)
  | (op, right_value) :: pairs' =>
      f ← ops op;
      v ← f left_value right_value;
      if truthy v then chained_pairs right_value pairs'
      else Ok (VBool false)
  end.

(** What the evaluator computes for a chain whose operands evaluated: each
    pair compares the first left operand with its own right side. *)
Fixpoint first_operand_pairs (left_value : object)
    (pairs : list (ast.cmpop * object)) : result object :=
  match pairs with
  | [] => Ok (VBool true)
  | (op, right_value) :: pairs' =>
      f ← ops op;
      v ← f left_value right_value;
      if truthy v then first_operand_pairs left_value pairs'
      else Ok (VBool false)
  end.

(** ** Example trees, rows and readers *)

(** The tree of [1 < 3 < 2]. *)
Definition chain_1_3_2 : ast.expr :=
  ast.Compare (ast.Constant (VInt 1)) [ast.Lt; ast.Lt]
    [ast.Constant (VInt 3); ast.Constant (VInt 2)].

(** The tree of [age + 1 > 5]. *)
Definition age_plus_one : ast.expr :=
  ast.Compare (ast.BinOp (ast.Name "age") ast.Add (ast.Constant (VInt 1)))
    [ast.Gt] [ast.Constant (VInt 5)].

(** The tree of [len(name) > 10]. *)
Definition long_name : ast.expr :=
  ast.Compare (ast.Call (ast.Name "len") [ast.Name "name"]) [ast.Gt]
    [ast.Constant (VInt 10)].

(** The float nearest to 3.7. *)
Definition float_3_7 : spec_float := S754_finite false 8331659310635418 (-51).

(** The row number [i] of a file whose field [id] counts the rows and whose
    field [hit] is 1 on every third row. *)
Definition numbered (i : nat) : Row :=
  <["hit" := if Nat.eqb (i mod 3) 0 then "1" else "0"]> {["id" := pretty i]}.

Definition numbered_rows (n : nat) : list Row := numbered <$> seq 0 n.

(** ** Saving the rows and the batch of the script

    The last part of [main.py]: [save_filtered_data] and the loop over
    [filters]. What they do to the outside is kept as the list of the calls
    they make, in order. Paths are POSIX paths. A call to the operating
    system is taken to succeed, but for [os.makedirs] of the empty path,
    which raises [FileNotFoundError]. The rows are the ones of the model:
    dicts whose keys and values are texts, which is what the reader yields
    for the records that have as many cells as the header; on these the keys
    of a row are the fields of its map. The order of the keys of a row is
    not kept by [Row]: the header of a written file is the set of the keys
    of the first row. *)

Inductive effect :=
  | Print (line : string)
  | MakeDirs (path : string)
  | OpenWrite (path : string)
  | WriteHeader (fieldnames : gset string)
  | WriteRow (cells : Row).

(** What ends a run early: an exception of the evaluator or of the writer,
    or the [FileNotFoundError] of [os.makedirs]. *)
Inductive failure :=
  | PyRaise (e : exn)
  | FileNotFoundError (path : string).

Definition is_slash (c : ascii) : bool := is_char 47 c.

Fixpoint drop_to_slash (cs : list ascii) : list ascii :=
  match cs with
  | c :: cs' => if is_slash c then cs else drop_to_slash cs'
  | [] => []
  end.

Fixpoint drop_slashes (cs : list ascii) : list ascii :=
  match cs with
  | c :: cs' => if is_slash c then drop_slashes cs' else cs
  | [] => []
  end.

(** [os.path.dirname]: the path up to its last slash, without the slashes at
    its end unless it is made of slashes only. *)
Definition dirname (p : string) : string :=
  let head := rev (drop_to_slash (rev (list_ascii_of_string p))) in
  string_of_list_ascii
    (if forallb is_slash head then head
     else rev (drop_slashes (rev head))).

(** [os.path.join] of two paths. *)
Definition path_join (a b : string) : string :=
  match list_ascii_of_string b, rev (list_ascii_of_string a) with
  | c :: _, last_a :: _ =>
      if is_slash c then b
      else if is_slash last_a then a +:+ b
      else a +:+ "/" +:+ b
  | _ :: _, [] => b
  | [], last_a :: _ => if is_slash last_a then a else a +:+ "/"
  | [], [] => EmptyString
  end.

(** The cells of a row under the field names of the writer: the text of
    each field, the empty text for a field the row does not have. *)
Definition cells_of (fieldnames : gset string) (rowdict : Row) : Row :=
  set_to_map (fun key => (key, default EmptyString (rowdict !! key)))
    fieldnames.

(** [DictWriter.writerows]: the rows are written one after the other; a row
    with a key that is no field name raises [ValueError], after the rows
    before it were written. *)
Fixpoint writerows (fieldnames : gset string) (rowdicts : list Row)
    : list effect * option failure :=
  match rowdicts with
  | [] => ([], None)
  | rowdict :: rowdicts' =>
      if decide (dom rowdict ⊆ fieldnames) then
        let '(written, err) := writerows fieldnames rowdicts' in
        (WriteRow (cells_of fieldnames rowdict) :: written, err)
      else ([], Some (PyRaise (interp_error ValueError)))
  end.

Definition save_filtered_data (filtered_data : list Row)
    (output_file : string) : list effect * option failure :=
  match filtered_data with
  | [] =>
      ([Print ("No data matched the filter criteria for " +:+ output_file
               +:+ ".")], None)
  | first :: _ =>
      let directory := dirname output_file in
      if String.eqb directory EmptyString
      then ([], Some (FileNotFoundError directory))
      else
        let fieldnames := dom first in
        let '(written, err) := writerows fieldnames filtered_data in
        ([MakeDirs directory; OpenWrite output_file; WriteHeader fieldnames]
         ++ written
         ++ match err with
            | None => [Print ("Data stored for " +:+ output_file +:+ ".")]
            | Some _ => []
            end, err)%list
  end.

(** An entry of the list [filters]. *)
Record filter_data := FilterData { criteria : string; output_file : string }.

(** The double quote, which the criteria of the script put around their
    texts. *)
Definition dq : string := String (ascii_of_nat 34) EmptyString.

Definition filters : list filter_data :=
  [ FilterData
      ("(specialty == " +:+ dq +:+ "Neurology" +:+ dq
       +:+ ") and (age >= 35) and (age <= 45)")
      "specialty_age_filtered.csv";
    FilterData
      ("(years_of_experience > 20) and (specialty != " +:+ dq
       +:+ "Cardiology" +:+ dq +:+ ")")
      "experience_specialty_filtered.csv";
    FilterData
      ("((specialty == " +:+ dq +:+ "Dermatology" +:+ dq
       +:+ ") or (specialty == " +:+ dq +:+ "Pediatrics" +:+ dq
       +:+ ")) and (age < 40)")
      "multiple_specialties_age_filtered.csv";
    FilterData
      "(len(name) > 10) and (salary >= 130000) and (salary <= 150000)"
      "name_length_salary_filtered.csv";
    FilterData
      ("((specialty == " +:+ dq +:+ "General Surgery" +:+ dq
       +:+ ") and (age >= 25) and (age <= 35)) or ((salary < 140000) and "
       +:+ "(specialty != " +:+ dq +:+ "Dermatology" +:+ dq +:+ "))")
      "complex_nested_filtered.csv" ].

Definition output_directory : string := "data".

(** The loop at the end of the script, over any list of filters; [reader]
    is what the reader of [doctors.csv] yields, the same each time the file
    is opened. An exception ends the loop. *)
Fixpoint run_filters (reader : list Row) (batch : list filter_data)
    : list effect * option failure :=
  match batch with
  | [] => ([], None)
  | entry :: batch' =>
      let filter_criteria := criteria entry in
      let out := path_join output_directory (output_file entry) in
      match read_csv_with_filter reader filter_criteria 1 50 with
      | Raise e => ([], Some (PyRaise e))
      | Ok filtered_data =>
          match save_filtered_data filtered_data out with
          | (effects, Some f) => (effects, Some f)
          | (effects, None) =>
              let '(effects', err) := run_filters reader batch' in
              ((effects ++ effects')%list, err)
          end
      end
  end.

Definition script (reader : list Row) : list effect * option failure :=
  run_filters reader filters.

(** ** Further notions *)

(** The field names the evaluation of a tree may look up in the row. *)
Fixpoint fields (e : ast.expr) : list string :=
  match e with
  | ast.BoolOp _ values => concat (map fields values)
  | ast.Compare left_ _ comparators =>
      (fields left_ ++ concat (map fields comparators))%list
  | ast.Name id => [id]
  | ast.Call (ast.Name _) (arg :: _) => fields arg
  | _ => []
  end.

(** The operators of the grammar that [ops] has no entry for. *)
Definition missing_op (op : ast.cmpop) : bool :=
  match op with
  | ast.Is | ast.IsNot | ast.In | ast.NotIn => true
  | _ => false
  end.

(** What [read_csv_with_filter] makes of a consumed generator: its rows, or
    the exception that ended it. *)
Definition collect (yielded : list Row * option exn) : result (list Row) :=
  match yielded with
  | (rows, None) => Ok rows
  | (_, Some e) => Raise e
  end.

(** *** Kinds of fields and of trees

    A check that is enough for a tree to evaluate without an exception. The
    kind of a raw text is the kind of the value [convert_value] makes of it;
    a schema gives the kind of the texts of some fields. *)

Definition text_kind (s : string) : kind :=
  match int_of_text s, float_of_text s with
  | None, None => KString
  | _, _ => KNumber
  end.

(** A row conforms to a schema when it has every field of the schema, with a
    text of the kind the schema gives. *)
Definition conforms (schema : gmap string kind) (row : Row) : Prop :=
  ∀ id k, schema !! id = Some k →
          ∃ s, row !! id = Some s ∧ text_kind s = k.

(** A pair of a chain is in order when its operator has an entry in [ops]
    and, for an order operator, both sides are numbers or both are
    strings. *)
Definition pair_checks (left_kind : kind) (op : ast.cmpop)
    (right_kind : option kind) : bool :=
  match right_kind with
  | None => false
  | Some k =>
      negb (missing_op op) &&
      (negb (order_op op) ||
       (bool_decide (left_kind = k) && bool_decide (left_kind ≠ KNone)))
  end.

(** The kind of the value of a tree, when every node of it is one of the
    five variants and is applied to operands it does not fail on. *)
Fixpoint check (schema : gmap string kind) (e : ast.expr) : option kind :=
  match e with
  | ast.BoolOp _ values =>
      if forallb (fun v => bool_decide (is_Some (check schema v))) values
      then Some KNumber else None
  | ast.Compare left_ ops_ comparators =>
      match check schema left_ with
      | Some k =>
          if forallb (fun '(op, kc) => pair_checks k op kc)
               (combine ops_ (map (check schema) comparators))
          then Some KNumber else None
      | None => None
      end
  | ast.Name id => schema !! id
  | ast.Constant v => Some (kind_of v)
  | ast.Call (ast.Name id) (arg :: _) =>
      if String.eqb id "len" then
        match check schema arg with
        | Some KString => Some KNumber
        | _ => None
        end
      else None
  | _ => None
  end.

(** The fields of [doctors.csv] that the filters of the script use. *)
Definition doctors_schema : gmap string kind :=
  <["specialty" := KString]> (<["name" := KString]> (<["age" := KNumber]>
    (<["salary" := KNumber]> {["years_of_experience" := KNumber]}))).

(** A row of a well-formed [doctors.csv], for the examples. *)
Definition doctor (name specialty age salary years : string) : Row :=
  <["name" := name]> (<["specialty" := specialty]> (<["age" := age]>
    (<["salary" := salary]> {["years_of_experience" := years]}))).

(** ** Lemmas on generators and on the evaluator *)

Section Generators.
Context {A : Type}.

Lemma star_args_ok (gen : generator A) (args : list A) :
  Forall2 (fun item a => item = Ok a) gen args → star_args gen = Ok args.
Proof.
  induction 1 as [|item a gen args Hitem _ IH]; [reflexivity|].
  simpl. rewrite Hitem, IH. reflexivity.
Qed.

Lemma star_args_some_raise (gen : generator A) (e : exn) :
  Raise e ∈ gen → ∃ e', star_args gen = Raise e'.
Proof.
  induction gen as [|item gen IH]; intros Hin.
  - inversion Hin.
  - destruct item as [a|e0]; [|exists e0; reflexivity].
    apply elem_of_cons in Hin as [Heq|Hin]; [discriminate|].
    destruct (IH Hin) as [e' He']. exists e'. simpl. rewrite He'. reflexivity.
Qed.
End Generators.

Section Evaluator.
Variable row : Row.

Lemma star_args_children_ok (values : list ast.expr) (args : list object) :
  Forall2 (fun child v => eval_expression child row = Ok v) values args →
  star_args (map (fun value => eval_expression value row) values) = Ok args.
Proof.
  intros H. apply star_args_ok.
  induction H; simpl; constructor; assumption.
Qed.

Lemma star_args_child_raises (before : list ast.expr) (child : ast.expr)
    (after : list ast.expr) (e : exn) :
  Forall (fun c => ∃ v, eval_expression c row = Ok v) before →
  eval_expression child row = Raise e →
  star_args (map (fun value => eval_expression value row)
               (before ++ child :: after)) = Raise e.
Proof.
  intros Hbefore Hchild.
  induction Hbefore as [|c before [v Hc] _ IH]; simpl.
  - rewrite Hchild. reflexivity.
  - rewrite Hc. simpl. rewrite IH. reflexivity.
Qed.

Lemma comparisons_pair_raises (lv : object)
    (ops_before : list ast.cmpop) (op : ast.cmpop)
    (ops_after : list ast.cmpop) (before : list ast.expr)
    (right_ : ast.expr) (after : list ast.expr) (e : exn) :
  Forall2 (fun o c => ∃ f r v,
             ops o = Ok f ∧ eval_expression c row = Ok r ∧
             f lv r = Ok v ∧ truthy v = true) ops_before before →
  (∃ f, ops op = Ok f) →
  eval_expression right_ row = Raise e →
  all_generator
    (map (fun '(op, right_) => f ← ops op; r ← right_; f lv r)
       (combine (ops_before ++ op :: ops_after)
          (map (fun right => eval_expression right row)
             (before ++ right_ :: after)))) = Raise e.
Proof.
  intros Hpairs [f Hf] Hright.
  induction Hpairs as [|o c ops_before before (g & r & v & Hg & Hr & Hv & Ht) _ IH];
    simpl.
  - rewrite Hf, Hright. reflexivity.
  - rewrite Hg, Hr. simpl. rewrite Hv. simpl. rewrite Ht. exact IH.
Qed.

(** An exception raised at a node the evaluation reaches is the outcome of
    the whole evaluation. *)
Lemma raise_at_reached_node (tree n : ast.expr) (e : exn) :
  reaches row tree n →
  eval_expression n row = Raise e →
  eval_expression tree row = Raise e.
Proof.
  induction 1 as
    [ tree
    | op before child after n Hbefore _ IH
    | left_ ops_ comparators n _ IH
    | left_ lv ops_before op ops_after before right_ after n
        Hleft Hpairs Hop _ IH
    | arg rest n _ IH ]; intros Hn.
  - exact Hn.
  - simpl. rewrite (star_args_child_raises _ _ _ e Hbefore (IH Hn)).
    reflexivity.
  - simpl. rewrite (IH Hn). reflexivity.
  - simpl. rewrite Hleft. simpl.
    exact (comparisons_pair_raises _ _ _ _ _ _ _ e Hpairs Hop (IH Hn)).
  - simpl. rewrite (IH Hn). reflexivity.
Qed.

(** What a node outside the five variants raises. *)
Lemma outside_variants_raises (n : ast.expr) :
  outside_variants n = true →
  ∃ e, eval_expression n row = Raise e ∧
       (e = unsupported n ∨ e = interp_error AttributeError).
Proof.
  destruct n as [| | | |func args| | | | |]; simpl; try discriminate;
    try (intros _; eexists; split; [reflexivity|left; reflexivity]).
  destruct func; simpl; try discriminate;
    try (intros _; eexists; split; [reflexivity|right; reflexivity]).
  intros Hid. apply negb_true_iff in Hid. rewrite Hid.
  eexists; split; [reflexivity|left; reflexivity].
Qed.
End Evaluator.

(** ** Chained comparisons *)

(** The evaluator on a chain whose operands all evaluate: every pair is
    compared against the value of the first left operand. *)
Lemma compare_uses_first_operand (row : Row) (left_ : ast.expr)
    (ops_ : list ast.cmpop) (comparators : list ast.expr)
    (lv : object) (rights : list object) :
  eval_expression left_ row = Ok lv →
  Forall2 (fun c r => eval_expression c row = Ok r) comparators rights →
  eval_expression (ast.Compare left_ ops_ comparators) row
  = first_operand_pairs lv (combine ops_ rights).
Proof.
  intros Hleft Hrights. simpl. rewrite Hleft. simpl.
  revert ops_.
  induction Hrights as [|c r comparators rights Hc _ IH]; intros [|op ops_];
    try reflexivity.
  simpl. destruct (ops op) as [f|e]; [|reflexivity]. simpl.
  rewrite Hc. simpl. destruct (f lv r) as [v|e]; [|reflexivity]. simpl.
  destruct (truthy v); [apply IH|reflexivity].
Qed.

(** C1, as the code has it. The claim reads a chain [a op1 b op2 c] as
    [(a op1 b) and (b op2 c)]; the evaluator never replaces the left operand,
    so it computes [(a op1 b) and (a op2 c)]. On [1 < 3 < 2] and the empty
    row the evaluator answers true, where the pairs of the claim, [1 < 3]
    and [3 < 2], give false. The two chains the specification quotes,
    [1 < 2 < 3] and [3 < 2 < 1], come out as it says. *)
Theorem chained_comparison_keeps_first_operand :
  parse_filter_expression "1 < 3 < 2" = Ok chain_1_3_2 ∧
  eval_expression chain_1_3_2 ∅ = Ok (VBool true) ∧
  chained_pairs (VInt 1) [(ast.Lt, VInt 3); (ast.Lt, VInt 2)]
    = Ok (VBool false) ∧
  first_operand_pairs (VInt 1) [(ast.Lt, VInt 3); (ast.Lt, VInt 2)]
    = Ok (VBool true) ∧
  evaluate_text "1 < 2 < 3" ∅ = Ok (VBool true) ∧
  evaluate_text "3 < 2 < 1" ∅ = Ok (VBool false).
Proof. repeat split; vm_compute; reflexivity. Qed.

(** ** The filtering loops *)

Lemma advance_drop (n : nat) (reader : list Row) :
  advance n reader = drop n reader.
Proof.
  revert reader. induction n as [|n IH]; intros reader; [reflexivity|].
  simpl. rewrite IH. destruct reader; [apply drop_nil|reflexivity].
Qed.

Section Loops.
Variable tree : ast.expr.

Let evaluates (row : Row) : Prop := ∃ v, eval_expression tree row = Ok v.

Lemma matches_truthy (row : Row) (v : object) :
  eval_expression tree row = Ok v → matches tree row = truthy v.
Proof. unfold matches. intros ->. reflexivity. Qed.

(** The second loop looks at the rows of index below [end_index], counted
    from where the first loop stopped, and keeps the matching ones. *)
Lemma scan_rows_take (end_index : Z) (reader : list Row) :
  ∀ (row_index : nat) (filtered_data : list Row),
    Forall evaluates (take (Z.to_nat end_index - row_index) reader) →
    scan_rows tree end_index row_index reader filtered_data
    = Ok (filtered_data ++
          List.filter (matches tree)
            (take (Z.to_nat end_index - row_index) reader))%list.
Proof.
  induction reader as [|row reader IH]; intros row_index filtered_data Hok.
  - simpl. rewrite take_nil. simpl. rewrite app_nil_r. reflexivity.
  - simpl. destruct (Z.leb_spec end_index (Z.of_nat row_index)) as [Hle|Hlt].
    + replace (Z.to_nat end_index - row_index) with 0 by lia.
      simpl. rewrite app_nil_r. reflexivity.
    + replace (Z.to_nat end_index - row_index)
        with (S (Z.to_nat end_index - S row_index)) in * by lia.
      simpl in *. inversion Hok as [|? ? [v Hv] Hrest]; subst.
      rewrite Hv. simpl. rewrite (IH _ _ Hrest).
      rewrite (matches_truthy _ _ Hv).
      destruct (truthy v); [rewrite <- app_assoc|]; reflexivity.
Qed.

(** The generator [filter_rows] yields the matching rows up to the first
    row whose evaluation raises. *)
Lemma filter_rows_filter (reader : list Row) :
  Forall evaluates reader →
  filter_rows reader tree = (List.filter (matches tree) reader, None).
Proof.
  induction 1 as [|row reader [v Hv] _ IH]; [reflexivity|].
  simpl. rewrite Hv, IH, (matches_truthy _ _ Hv).
  destruct (truthy v); reflexivity.
Qed.

Lemma filter_sublist (rows : list Row) :
  List.filter (matches tree) rows `sublist_of` rows.
Proof.
  induction rows as [|row rows IH]; simpl; [constructor|].
  destruct (matches tree row); constructor; exact IH.
Qed.

Lemma elem_of_filter_matches (rows : list Row) (row : Row) :
  row ∈ List.filter (matches tree) rows
  ↔ row ∈ rows ∧ matches tree row = true.
Proof.
  rewrite !list_elem_of_In. apply filter_In.
Qed.
End Loops.

(** [read_csv_with_filter] skips [(page_number - 1) * page_size] rows and
    then looks at the next [(page_number - 1) * page_size + page_size]
    ones. *)
Lemma read_csv_with_filter_scanned (reader : list Row)
    (filter_criteria : string) (tree : ast.expr) (page_number page_size : Z) :
  parse_filter_expression filter_criteria = Ok tree →
  Forall (fun row => ∃ v, eval_expression tree row = Ok v)
    (scanned_rows reader page_number page_size) →
  read_csv_with_filter reader filter_criteria page_number page_size
  = Ok (List.filter (matches tree) (scanned_rows reader page_number page_size)).
Proof.
  intros Hparse Hok. unfold read_csv_with_filter. rewrite Hparse. simpl.
  rewrite advance_drop. unfold scanned_rows in *.
  rewrite scan_rows_take; rewrite Nat.sub_0_r; [reflexivity|exact Hok].
Qed.

(** C2, as the code has it. After the skip the second loop counts its rows
    from 0 again and stops at [end_index], which is an index of the whole
    file: on page 2 with pages of one row it looks at two rows, and returns
    the row at offset 2, which lies beyond the second page. Of four rows that
    all match, the claim admits the row at offset 1 alone. *)
Theorem second_page_runs_past_its_end :
  read_csv_with_filter (numbered_rows 4) "id >= 0" 2 1
    = Ok [numbered 1; numbered 2] ∧
  take 1 (drop 1 (numbered_rows 4)) = [numbered 1] ∧
  numbered_rows 4 !! 2 = Some (numbered 2) ∧
  numbered 2 ≠ numbered 1 ∧
  matches (ast.Compare (ast.Name "id") [ast.GtE] [ast.Constant (VInt 0)])
    (numbered 1) = true.
Proof.
  split; [vm_compute; reflexivity|].
  split; [reflexivity|]. split; [reflexivity|].
  split; [|vm_compute; reflexivity].
  intros Heq.
  assert (H : numbered 2 !! "id" = numbered 1 !! "id") by (rewrite Heq; reflexivity).
  vm_compute in H. discriminate H.
Qed.

(** The window of the specification's own example: of 120 rows where every
    third one matches, page 2 with pages of 50 rows returns the matches at
    the offsets 51 to 117, those at 102 and beyond included. *)
Example second_page_of_120_rows :
  read_csv_with_filter (numbered_rows 120) "hit == 1" 2 50
  = Ok (numbered <$> [51; 54; 57; 60; 63; 66; 69; 72; 75; 78; 81; 84; 87;
                       90; 93; 96; 99; 102; 105; 108; 111; 114; 117]).
Proof. vm_compute. reflexivity. Qed.

(** ** Constructs outside the five variants *)

(** C3, amended. A text of valid syntax compiles to its tree whatever nodes
    the tree holds; a node outside the five variants is rejected when a row
    is evaluated: as soon as the evaluation reaches the node it ends with the
    exception of that node, the [ValueError] "Unsupported expression type",
    or an [AttributeError] when the node is a call whose target is no name.
    So [age + 1 > 5] compiles, and its evaluation raises that [ValueError]
    on every row. An assignment is no expression: [x = 5] does not parse and
    is rejected when it is compiled. *)
Theorem unsupported_node_rejected_when_reached (text : string)
    (tree n : ast.expr) (row : Row) :
  ast.parse python text = Some tree →
  reaches row tree n →
  outside_variants n = true →
  parse_filter_expression text = Ok tree ∧
  (∃ e, eval_expression tree row = Raise e ∧
        (e = unsupported n ∨ e = interp_error AttributeError)) ∧
  (∀ row', evaluate_text "age + 1 > 5" row'
           = Raise (Exn ValueError
                      "Unsupported expression type: <class 'ast.BinOp'>")) ∧
  parse_filter_expression "x = 5"
  = Raise (Exn ValueError "Invalid filter expression: x = 5").
Proof.
  intros Hparse Hreach Hout.
  split; [|split; [|split; [|vm_compute; reflexivity]]].
  - unfold parse_filter_expression. rewrite Hparse. reflexivity.
  - destruct (outside_variants_raises row n Hout) as (e & He & Hcls).
    exists e. split; [|exact Hcls].
    exact (raise_at_reached_node row tree n e Hreach He).
  - intros row'. unfold evaluate_text.
    replace (parse_filter_expression "age + 1 > 5") with (Ok age_plus_one)
      by (vm_compute; reflexivity).
    reflexivity.
Qed.

(** ** Calls *)

Lemma len_reads_first_argument_only (row : Row) (arg : ast.expr)
    (further : list ast.expr) :
  eval_expression (ast.Call (ast.Name "len") (arg :: further)) row
  = eval_expression (ast.Call (ast.Name "len") [arg]) row.
Proof. reflexivity. Qed.

Lemma call_of_other_name_raises (row : Row) (id : string)
    (args : list ast.expr) :
  id ≠ "len" →
  eval_expression (ast.Call (ast.Name id) args) row
  = Raise (Exn ValueError "Unsupported expression type: <class 'ast.Call'>").
Proof.
  intros Hid. simpl.
  destruct (String.eqb_spec id "len") as [Heq|_]; [contradiction|].
  reflexivity.
Qed.

(** C4, as the code has it. The branch of calls tests the name of the
    target and nothing else, and reads [args[0]]: it has no test of the
    number of arguments. [len(name, age + 1)] compiles and evaluates to 3 on
    a row whose [name] is [Bob], the second argument is never looked at,
    where the claim has a call of [len] with two arguments rejected; [len()]
    is stopped by the [IndexError] of [args[0]] and not by the rejection of
    the claim. A call of another name is rejected as the claim says, with
    the [ValueError] "Unsupported expression type". *)
Theorem len_accepts_further_arguments :
  parse_filter_expression "len(name, age + 1)"
  = Ok (ast.Call (ast.Name "len")
          [ast.Name "name";
           ast.BinOp (ast.Name "age") ast.Add (ast.Constant (VInt 1))]) ∧
  eval_expression
    (ast.Call (ast.Name "len")
       [ast.Name "name";
        ast.BinOp (ast.Name "age") ast.Add (ast.Constant (VInt 1))])
    {["name" := "Bob"]} = Ok (VInt 3) ∧
  eval_expression
    (ast.BinOp (ast.Name "age") ast.Add (ast.Constant (VInt 1)))
    {["name" := "Bob"]}
  = Raise (Exn ValueError "Unsupported expression type: <class 'ast.BinOp'>") ∧
  eval_expression (ast.Call (ast.Name "len") []) {["name" := "Bob"]}
  = Raise (interp_error IndexError) ∧
  eval_expression (ast.Call (ast.Name "upper") [ast.Name "name"])
    {["name" := "Bob"]}
  = Raise (Exn ValueError "Unsupported expression type: <class 'ast.Call'>").
Proof. repeat split; vm_compute; reflexivity. Qed.

(** The arguments of [len] after the first one are never looked at. *)
Example len_ignores_further_arguments :
  evaluate_text "len(name, age + 1)" {["name" := "Bob"]} = Ok (VInt 3).
Proof. vm_compute. reflexivity. Qed.

(** A node the evaluation does not reach raises nothing: [all] stops at the
    first false pair of a chain. *)
Example unreached_node_raises_nothing :
  evaluate_text "1 > 2 > age + 1" {["age" := "40"]} = Ok (VBool false).
Proof. vm_compute. reflexivity. Qed.

(** ** Fields a row does not have *)

Lemma absent_field_raises (row : Row) (id : string) :
  row !! id = None →
  eval_expression (ast.Name id) row = Raise (interp_error TypeError).
Proof. intros H. simpl. unfold row_get. rewrite H. reflexivity. Qed.

(** C5, as the code has it. The lookup of an absent field does not fail,
    [row.get] answers [None], and [None] goes into the coercion; there
    [int(None)] raises a [TypeError], which [convert_value] does not catch,
    so the evaluation of the field reference raises, where the claim has it
    complete. *)
Theorem absent_field_reference_raises :
  row_get ∅ "age" = VNone ∧
  convert_value VNone = Raise (interp_error TypeError) ∧
  eval_expression (ast.Name "age") ∅ = Raise (interp_error TypeError) ∧
  evaluate_text "age >= 35" {["name" := "Bob"]}
    = Raise (interp_error TypeError).
Proof. repeat split; vm_compute; reflexivity. Qed.

(** ** Comparisons across kinds *)

(** C6, amended. When the value of the left operand and the value of the
    right operand are of two kinds (a string against a number, [None]
    against either), the comparison raises a [TypeError] at evaluation time
    for the four order operators LT, LE, GT and GE, whatever pairs follow in
    the chain; EQ and NE raise nothing, EQ answers false and NE answers
    true. The failure is reached from a compiled tree: [name < 5] on a row
    whose [name] is [Bob]. *)
Theorem comparison_across_kinds (row : Row) (left_ right_ : ast.expr)
    (op : ast.cmpop) (ops_ : list ast.cmpop) (comparators : list ast.expr)
    (a b : object) :
  eval_expression left_ row = Ok a →
  eval_expression right_ row = Ok b →
  kind_of a ≠ kind_of b →
  (order_op op = true →
   eval_expression (ast.Compare left_ (op :: ops_) (right_ :: comparators)) row
   = Raise (interp_error TypeError)) ∧
  eval_expression
    (ast.Compare left_ (ast.Eq :: ops_) (right_ :: comparators)) row
  = Ok (VBool false) ∧
  eval_expression (ast.Compare left_ [ast.NotEq] [right_]) row
  = Ok (VBool true) ∧
  parse_filter_expression "name < 5"
  = Ok (ast.Compare (ast.Name "name") [ast.Lt] [ast.Constant (VInt 5)]) ∧
  evaluate_text "name < 5" {["name" := "Bob"]}
  = Raise (interp_error TypeError).
Proof.
  intros Ha Hb Hkind.
  split; [|split; [|split; [|split; vm_compute; reflexivity]]].
  - intros Hop. simpl. rewrite Ha, Hb. simpl.
    destruct a, b; simpl in Hkind; try contradiction;
      destruct op; try discriminate Hop; reflexivity.
  - simpl. rewrite Ha, Hb. simpl.
    destruct a, b; simpl in Hkind; try contradiction; reflexivity.
  - simpl. rewrite Ha, Hb. simpl.
    destruct a, b; simpl in Hkind; try contradiction; reflexivity.
Qed.

(** ** Coercion *)

(** C7, counterexample. The text [3.7] is coerced to the float 3.7, and the
    coercion of that float is the integer 3. *)
Lemma coercion_of_float_truncates :
  convert_value (VStr "3.7") = Ok (VFloat float_3_7) ∧
  convert_value (VFloat float_3_7) = Ok (VInt 3) ∧
  (v ← convert_value (VStr "3.7"); convert_value v) ≠ convert_value (VStr "3.7").
Proof.
  split; [vm_compute; reflexivity|]. split; [vm_compute; reflexivity|].
  vm_compute. discriminate.
Qed.

(** C7, amended. The coercion of a raw text is its integer parse, else its
    float parse, else the text itself, and it raises nothing. Coercing the
    result again gives the same typed result when the result is an integer
    or a string; a result that is a float is not kept, the second coercion
    is [int] of it: its integer part when it is finite. *)
Theorem coercion_twice (s : string) :
  let v := match int_of_text s with
           | Some z => VInt z
           | None =>
               match float_of_text s with
               | Some f => VFloat f
               | None => VStr s
               end
           end in
  convert_value (VStr s) = Ok v ∧
  ((∀ f, v ≠ VFloat f) → convert_value v = Ok v) ∧
  (∀ f z, v = VFloat f → float_trunc f = Ok z →
          convert_value v = Ok (VInt z)).
Proof.
  unfold convert_value. simpl.
  destruct (int_of_text s) as [z|] eqn:Hint; simpl.
  - split; [reflexivity|]. split; [reflexivity|]. discriminate.
  - destruct (float_of_text s) as [f|] eqn:Hfloat; simpl.
    + split; [reflexivity|]. split.
      * intros Hnot. exfalso. exact (Hnot f eq_refl).
      * intros f' z [= <-] Hz. rewrite Hz. reflexivity.
    + split; [reflexivity|]. split; [|discriminate].
      intros _. rewrite Hint. simpl. rewrite Hfloat. reflexivity.
Qed.

Lemma coercion_twice_witness :
  convert_value (VStr " 1_000 ") = Ok (VInt 1000) ∧
  convert_value (VInt 1000) = Ok (VInt 1000) ∧
  convert_value (VStr "Neurology") = Ok (VStr "Neurology").
Proof.
  split; [exact (proj1 (coercion_twice " 1_000 "))|].
  split.
  - refine (proj1 (proj2 (coercion_twice " 1_000 ")) _). discriminate.
  - exact (proj1 (coercion_twice "Neurology")).
Defined.

(** ** Boolean combinators *)

(** C8. A [BoolOp] evaluates every child, in order, before it reduces: when
    the children evaluate to [args] the result is [all] of them for AND and
    [any] of them for OR, and when a child raises the node raises, whatever
    the children before it evaluated to. On [(age >= 35) and (age <= 45)] the
    age 40 gives true and the age 50 gives false. *)
Theorem boolop_reduces_every_child (row : Row) (op : ast.boolop)
    (values : list ast.expr) :
  (∀ args,
     Forall2 (fun child v => eval_expression child row = Ok v) values args →
     eval_expression (ast.BoolOp op values) row
     = Ok (VBool match op with
                 | ast.And => forallb truthy args
                 | ast.Or => existsb truthy args
                 end)) ∧
  (∀ child e,
     child ∈ values → eval_expression child row = Raise e →
     ∃ e', eval_expression (ast.BoolOp op values) row = Raise e') ∧
  (∀ before child after e,
     values = (before ++ child :: after)%list →
     Forall (fun c => ∃ v, eval_expression c row = Ok v) before →
     eval_expression child row = Raise e →
     eval_expression (ast.BoolOp op values) row = Raise e) ∧
  evaluate_text "(age >= 35) and (age <= 45)" {["age" := "40"]}
    = Ok (VBool true) ∧
  evaluate_text "(age >= 35) and (age <= 45)" {["age" := "50"]}
    = Ok (VBool false).
Proof.
  split; [|split; [|split; [|split; vm_compute; reflexivity]]].
  - intros args Hargs. simpl.
    rewrite (star_args_children_ok row values args Hargs).
    destruct op; reflexivity.
  - intros child e Hin Hchild.
    destruct (star_args_some_raise
                (map (fun value => eval_expression value row) values) e)
      as [e' He'].
    + rewrite <- Hchild. apply list_elem_of_In.
      apply (in_map (fun value => eval_expression value row)).
      apply list_elem_of_In, Hin.
    + exists e'. simpl. rewrite He'. reflexivity.
  - intros before child after e -> Hbefore Hchild. simpl.
    rewrite (star_args_child_raises row before child after e Hbefore Hchild).
    reflexivity.
Qed.

(** ** The length call *)

(** C9, amended. A call of [len] evaluates its argument; when the value is a
    string the call is its length, an integer, and when the value is a
    number the call raises a [TypeError]. [len(name) > 10] is false on the
    name [Alexandria], of ten characters, and false on [Alexandri], of nine;
    it is true on [Alexandria M], of twelve. *)
Theorem length_call (row : Row) (arg : ast.expr) :
  (∀ s, eval_expression arg row = Ok (VStr s) →
        eval_expression (ast.Call (ast.Name "len") [arg]) row
        = Ok (VInt (Z.of_nat (String.length s)))) ∧
  (∀ v, eval_expression arg row = Ok v → kind_of v = KNumber →
        eval_expression (ast.Call (ast.Name "len") [arg]) row
        = Raise (interp_error TypeError)) ∧
  (∀ e, eval_expression arg row = Raise e →
        eval_expression (ast.Call (ast.Name "len") [arg]) row = Raise e) ∧
  parse_filter_expression "len(name) > 10" = Ok long_name ∧
  evaluate_text "len(name) > 10" {["name" := "Alexandria"]} = Ok (VBool false) ∧
  evaluate_text "len(name) > 10" {["name" := "Alexandri"]} = Ok (VBool false) ∧
  evaluate_text "len(name) > 10" {["name" := "Alexandria M"]} = Ok (VBool true).
Proof.
  split; [|split; [|split; [|repeat split; vm_compute; reflexivity]]].
  - intros s Hs. simpl. rewrite Hs. reflexivity.
  - intros v Hv Hkind. simpl. rewrite Hv.
    destruct v; try discriminate Hkind; reflexivity.
  - intros e He. simpl. rewrite He. reflexivity.
Qed.

(** ** The filtering operations *)

(** C10. When no row the operation looks at raises, what it returns is the
    rows it looked at that match the filter, in their order: the generator
    [filter_rows] looks at every row of the reader, [read_csv_with_filter] at
    the rows of [scanned_rows]. The returned rows are a sublist of the rows
    looked at, and a row is returned exactly when it is one of them and
    matches. *)
Theorem filtering_returns_matching_sublist (reader : list Row)
    (filter_criteria : string) (tree : ast.expr) (page_number page_size : Z) :
  parse_filter_expression filter_criteria = Ok tree →
  (Forall (fun row => ∃ v, eval_expression tree row = Ok v) reader →
   ∃ rows,
     filter_rows reader tree = (rows, None) ∧
     rows = List.filter (matches tree) reader ∧
     rows `sublist_of` reader ∧
     ∀ row, row ∈ rows ↔ row ∈ reader ∧ matches tree row = true) ∧
  (Forall (fun row => ∃ v, eval_expression tree row = Ok v)
     (scanned_rows reader page_number page_size) →
   ∃ rows,
     read_csv_with_filter reader filter_criteria page_number page_size
       = Ok rows ∧
     rows = List.filter (matches tree)
              (scanned_rows reader page_number page_size) ∧
     rows `sublist_of` scanned_rows reader page_number page_size ∧
     rows `sublist_of` reader ∧
     ∀ row, row ∈ rows ↔
            row ∈ scanned_rows reader page_number page_size ∧
            matches tree row = true).
Proof.
  intros Hparse. split; intros Hok; eexists; split.
  - apply filter_rows_filter, Hok.
  - split; [reflexivity|]. split; [apply filter_sublist|].
    apply elem_of_filter_matches.
  - apply (read_csv_with_filter_scanned _ _ tree _ _ Hparse Hok).
  - split; [reflexivity|]. split; [apply filter_sublist|]. split.
    + etrans; [apply filter_sublist|]. unfold scanned_rows.
      etrans; [apply sublist_take|apply sublist_drop].
    + apply elem_of_filter_matches.
Qed.

(** ** The paginated filter and the generator *)

(** The second loop is the generator on the rows below [end_index]. *)
Lemma scan_rows_collect (tree : ast.expr) (end_index : Z) (reader : list Row) :
  ∀ (row_index : nat) (filtered_data : list Row),
    scan_rows tree end_index row_index reader filtered_data
    = match filter_rows (take (Z.to_nat end_index - row_index) reader) tree with
      | (rows, None) => Ok (filtered_data ++ rows)%list
      | (_, Some e) => Raise e
      end.
Proof.
  induction reader as [|row reader IH]; intros row_index filtered_data.
  - simpl. rewrite take_nil. simpl. rewrite app_nil_r. reflexivity.
  - simpl. destruct (Z.leb_spec end_index (Z.of_nat row_index)) as [Hle|Hlt].
    + replace (Z.to_nat end_index - row_index) with 0 by lia.
      simpl. rewrite app_nil_r. reflexivity.
    + replace (Z.to_nat end_index - row_index)
        with (S (Z.to_nat end_index - S row_index)) by lia.
      simpl. destruct (eval_expression tree row) as [v|e]; [|reflexivity].
      simpl. rewrite IH.
      destruct (filter_rows (take (Z.to_nat end_index - S row_index) reader) tree)
        as [rows [e|]]; [reflexivity|].
      destruct (truthy v); [rewrite <- app_assoc|]; reflexivity.
Qed.

Lemma read_csv_with_filter_collect (reader : list Row)
    (filter_criteria : string) (page_number page_size : Z) :
  read_csv_with_filter reader filter_criteria page_number page_size
  = (expression_tree ← parse_filter_expression filter_criteria;
     collect (filter_rows (scanned_rows reader page_number page_size)
                expression_tree)).
Proof.
  unfold read_csv_with_filter, scanned_rows, collect.
  destruct (parse_filter_expression filter_criteria) as [tree|e];
    [|reflexivity].
  simpl. rewrite advance_drop, scan_rows_collect, Nat.sub_0_r.
  destruct (filter_rows _ tree) as [rows [e|]]; reflexivity.
Qed.

(** X1. [read_csv_with_filter] is [filter_rows] run over the rows of its
    window: it returns what the generator yields when the generator ends by
    itself, and raises what ends the generator otherwise, the rows yielded
    until then being lost. *)
Theorem read_csv_with_filter_is_filter_rows (reader : list Row)
    (filter_criteria : string) (page_number page_size : Z) :
  read_csv_with_filter reader filter_criteria page_number page_size
  = (expression_tree ← parse_filter_expression filter_criteria;
     collect (filter_rows (scanned_rows reader page_number page_size)
                expression_tree)).
Proof. apply read_csv_with_filter_collect. Qed.

(** X2. The result depends on the rows of the window only: the rows that are
    skipped and the rows after the window are never evaluated, so two files
    with the same window give the same result, a raised exception
    included. *)
Theorem read_csv_with_filter_window_only (reader reader' : list Row)
    (filter_criteria : string) (page_number page_size : Z) :
  scanned_rows reader page_number page_size
  = scanned_rows reader' page_number page_size →
  read_csv_with_filter reader filter_criteria page_number page_size
  = read_csv_with_filter reader' filter_criteria page_number page_size.
Proof.
  intros Hwin. rewrite !read_csv_with_filter_collect, Hwin. reflexivity.
Qed.

(** The generator over two files read one after the other. *)
Lemma filter_rows_app (tree : ast.expr) (reader reader' : list Row) :
  filter_rows (reader ++ reader') tree
  = match filter_rows reader tree with
    | (rows, Some e) => (rows, Some e)
    | (rows, None) =>
        let '(rows', e) := filter_rows reader' tree in ((rows ++ rows')%list, e)
    end.
Proof.
  induction reader as [|row reader IH]; simpl.
  - destruct (filter_rows reader' tree); reflexivity.
  - destruct (eval_expression tree row) as [v|e]; [|reflexivity].
    rewrite IH. destruct (filter_rows reader tree) as [rows [e|]].
    + reflexivity.
    + destruct (filter_rows reader' tree) as [rows' e'].
      destruct (truthy v); reflexivity.
Qed.

Lemma filter_rows_raise (tree : ast.expr)
    (before : list Row) (row : Row) (after : list Row) (e : exn) :
  Forall (fun r => ∃ v, eval_expression tree r = Ok v) before →
  eval_expression tree row = Raise e →
  filter_rows (before ++ row :: after) tree
  = (List.filter (matches tree) before, Some e).
Proof.
  intros Hbefore Hrow.
  rewrite filter_rows_app, (filter_rows_filter tree before Hbefore).
  simpl. rewrite Hrow. rewrite app_nil_r. reflexivity.
Qed.

(** X3. A row whose evaluation raises ends the generator [filter_rows]: it
    has yielded the matching rows before that row, and the rows after it are
    never evaluated. *)
Theorem filter_rows_stops_at_raise (tree : ast.expr)
    (before : list Row) (row : Row) (after : list Row) (e : exn) :
  Forall (fun r => ∃ v, eval_expression tree r = Ok v) before →
  eval_expression tree row = Raise e →
  filter_rows (before ++ row :: after) tree
  = (List.filter (matches tree) before, Some e).
Proof. apply filter_rows_raise. Qed.

Lemma filter_rows_stops_at_raise_witness :
  filter_rows [numbered 0; numbered 1; ∅; numbered 3]
    (ast.Compare (ast.Name "hit") [ast.Eq] [ast.Constant (VInt 1)])
  = ([numbered 0], Some (interp_error TypeError)).
Proof.
  refine (eq_trans
    (filter_rows_stops_at_raise
       (ast.Compare (ast.Name "hit") [ast.Eq] [ast.Constant (VInt 1)])
       [numbered 0; numbered 1] ∅ [numbered 3] (interp_error TypeError) _ _) _).
  - repeat constructor; eexists; vm_compute; reflexivity.
  - vm_compute; reflexivity.
  - vm_compute; reflexivity.
Defined.

(** X4. A row of the window whose evaluation raises makes
    [read_csv_with_filter] raise that exception, whatever matched before
    it. *)
Theorem read_csv_with_filter_raises (reader : list Row)
    (filter_criteria : string) (tree : ast.expr) (page_number page_size : Z)
    (before : list Row) (row : Row) (after : list Row) (e : exn) :
  parse_filter_expression filter_criteria = Ok tree →
  scanned_rows reader page_number page_size = (before ++ row :: after)%list →
  Forall (fun r => ∃ v, eval_expression tree r = Ok v) before →
  eval_expression tree row = Raise e →
  read_csv_with_filter reader filter_criteria page_number page_size = Raise e.
Proof.
  intros Hparse Hwin Hbefore Hrow.
  rewrite read_csv_with_filter_collect, Hparse, Hwin. simpl.
  rewrite (filter_rows_raise tree before row after e Hbefore Hrow).
  reflexivity.
Qed.

Lemma scanned_rows_first_page (reader : list Row) (page_size : Z) :
  scanned_rows reader 1 page_size = take (Z.to_nat page_size) reader.
Proof.
  unfold scanned_rows.
  replace ((1 - 1) * page_size)%Z with 0%Z by lia. reflexivity.
Qed.

(** X5. On page 1 the window is the first [page_size] rows of the file: when
    none of them raises, the result is the matching rows among them, and it
    has [page_size] rows at most. *)
Theorem first_page_is_first_rows (reader : list Row)
    (filter_criteria : string) (tree : ast.expr) (page_size : Z) :
  parse_filter_expression filter_criteria = Ok tree →
  Forall (fun row => ∃ v, eval_expression tree row = Ok v)
    (take (Z.to_nat page_size) reader) →
  read_csv_with_filter reader filter_criteria 1 page_size
  = Ok (List.filter (matches tree) (take (Z.to_nat page_size) reader)) ∧
  (length (List.filter (matches tree) (take (Z.to_nat page_size) reader))
   ≤ Z.to_nat page_size)%nat.
Proof.
  intros Hparse Hok. split.
  - rewrite <- scanned_rows_first_page in *.
    apply (read_csv_with_filter_scanned _ _ tree _ _ Hparse Hok).
  - etrans; [apply sublist_length, filter_sublist|].
    rewrite length_take. lia.
Qed.

(** X6. A page that holds no row gives the empty list and evaluates nothing:
    when [page_number * page_size] is not positive, and when the file has no
    more rows than the ones skipped. Running past the end of the file is no
    error. *)
Theorem empty_page_is_empty (reader : list Row) (filter_criteria : string)
    (tree : ast.expr) (page_number page_size : Z) :
  parse_filter_expression filter_criteria = Ok tree →
  ((page_number - 1) * page_size + page_size ≤ 0
   ∨ Z.of_nat (length reader) ≤ (page_number - 1) * page_size)%Z →
  read_csv_with_filter reader filter_criteria page_number page_size = Ok [].
Proof.
  intros Hparse Hempty.
  rewrite read_csv_with_filter_collect, Hparse. simpl.
  assert (Hwin : scanned_rows reader page_number page_size = []).
  { unfold scanned_rows. destruct Hempty as [Hend|Hstart].
    - replace (Z.to_nat ((page_number - 1) * page_size + page_size))
        with 0 by lia.
      reflexivity.
    - rewrite drop_ge by lia. apply take_nil. }
  rewrite Hwin. reflexivity.
Qed.

(** X7. No row is lost by the pagination: with pages of [page_size] rows the
    row at offset [i] is in the window of page [i / page_size + 1], and it is
    returned on that page when it matches and no row of the window
    raises. *)
Theorem every_row_is_on_its_page (reader : list Row)
    (filter_criteria : string) (tree : ast.expr) (page_size : Z)
    (i : nat) (row : Row) :
  (0 < page_size)%Z →
  reader !! i = Some row →
  row ∈ scanned_rows reader (Z.of_nat i / page_size + 1) page_size ∧
  (parse_filter_expression filter_criteria = Ok tree →
   Forall (fun r => ∃ v, eval_expression tree r = Ok v)
     (scanned_rows reader (Z.of_nat i / page_size + 1) page_size) →
   matches tree row = true →
   ∃ rows,
     read_csv_with_filter reader filter_criteria
       (Z.of_nat i / page_size + 1) page_size = Ok rows ∧
     row ∈ rows).
Proof.
  intros Hsize Hrow.
  assert (Hin : row ∈ scanned_rows reader (Z.of_nat i / page_size + 1)
                        page_size).
  { unfold scanned_rows.
    replace (Z.of_nat i / page_size + 1 - 1)%Z
      with (Z.of_nat i / page_size)%Z by lia.
    pose proof (Z.div_mod (Z.of_nat i) page_size ltac:(lia)) as Hdiv.
    pose proof (Z.mod_pos_bound (Z.of_nat i) page_size Hsize) as Hmod.
    assert (0 ≤ Z.of_nat i / page_size)%Z by (apply Z.div_pos; lia).
    apply list_elem_of_lookup.
    exists (i - Z.to_nat (Z.of_nat i / page_size * page_size)).
    rewrite lookup_take_lt by nia.
    rewrite lookup_drop.
    replace (Z.to_nat (Z.of_nat i / page_size * page_size)
             + (i - Z.to_nat (Z.of_nat i / page_size * page_size)))
      with i by nia.
    exact Hrow. }
  split; [exact Hin|].
  intros Hparse Hok Hmatch. eexists. split.
  - apply (read_csv_with_filter_scanned _ _ tree _ _ Hparse Hok).
  - apply elem_of_filter_matches. split; assumption.
Qed.

(** X8. Filtering is idempotent: the rows the generator yields all match, so
    filtering them again with the same tree yields them all and raises
    nothing, even when the first run was ended by an exception. *)
Theorem filter_rows_idempotent (reader : list Row) (tree : ast.expr) :
  filter_rows (filter_rows reader tree).1 tree
  = ((filter_rows reader tree).1, None).
Proof.
  induction reader as [|row reader IH]; [reflexivity|].
  simpl. destruct (eval_expression tree row) as [v|e] eqn:Hv; [|reflexivity].
  destruct (filter_rows reader tree) as [rows e]. simpl in *.
  destruct (truthy v) eqn:Ht; [|exact IH].
  simpl. rewrite Hv, IH, Ht. reflexivity.
Qed.

(** X9. Filtering by [a and b] is filtering by [a] and then filtering what is
    left by [b], on rows where neither tree raises. *)
Theorem and_filter_is_two_passes (reader : list Row) (a b : ast.expr) :
  Forall (fun row => (∃ v, eval_expression a row = Ok v) ∧
                     (∃ v, eval_expression b row = Ok v)) reader →
  filter_rows reader (ast.BoolOp ast.And [a; b])
  = filter_rows (filter_rows reader a).1 b.
Proof.
  induction 1 as [|row reader [[va Ha] [vb Hb]] _ IH]; [reflexivity|].
  simpl. rewrite Ha, Hb. simpl. rewrite IH.
  destruct (filter_rows reader a) as [rows e]. simpl.
  destruct (truthy va); simpl.
  - rewrite Hb. rewrite andb_true_r. reflexivity.
  - destruct (filter_rows rows b); reflexivity.
Qed.

Lemma and_filter_is_two_passes_witness :
  filter_rows (numbered_rows 7)
    (ast.BoolOp ast.And
       [ast.Compare (ast.Name "hit") [ast.Eq] [ast.Constant (VInt 1)];
        ast.Compare (ast.Name "id") [ast.Gt] [ast.Constant (VInt 2)]])
  = ([numbered 3; numbered 6], None).
Proof.
  refine (eq_trans (and_filter_is_two_passes (numbered_rows 7)
    (ast.Compare (ast.Name "hit") [ast.Eq] [ast.Constant (VInt 1)])
    (ast.Compare (ast.Name "id") [ast.Gt] [ast.Constant (VInt 2)]) _) _).
  - repeat constructor; eexists; vm_compute; reflexivity.
  - vm_compute; reflexivity.
Defined.

(** ** More on the evaluator *)

(** Induction on trees, with the hypothesis on every tree of a list of
    children. *)
Lemma expr_nested_ind (P : ast.expr → Prop) :
  (∀ op values, Forall P values → P (ast.BoolOp op values)) →
  (∀ left_ ops_ comparators,
     P left_ → Forall P comparators →
     P (ast.Compare left_ ops_ comparators)) →
  (∀ id, P (ast.Name id)) →
  (∀ v, P (ast.Constant v)) →
  (∀ func args, P func → Forall P args → P (ast.Call func args)) →
  (∀ l op r, P l → P r → P (ast.BinOp l op r)) →
  (∀ op e, P e → P (ast.UnaryOp op e)) →
  (∀ e attr, P e → P (ast.Attribute e attr)) →
  (∀ e i, P e → P i → P (ast.Subscript e i)) →
  (∀ cls, P (ast.Other cls)) →
  ∀ e, P e.
Proof.
  intros HBoolOp HCompare HName HConstant HCall HBinOp HUnaryOp HAttribute
    HSubscript HOther.
  fix IH 1.
  intros [op values|left_ ops_ comparators|id|v|func args|l op r|op e
         |e attr|e i|cls].
  - apply HBoolOp. induction values; constructor; [apply IH|assumption].
  - apply HCompare; [apply IH|].
    induction comparators; constructor; [apply IH|assumption].
  - apply HName.
  - apply HConstant.
  - apply HCall; [apply IH|].
    induction args; constructor; [apply IH|assumption].
  - apply HBinOp; apply IH.
  - apply HUnaryOp; apply IH.
  - apply HAttribute; apply IH.
  - apply HSubscript; apply IH.
  - apply HOther.
Qed.

Lemma all_generator_bool (gen : generator object) (v : object) :
  all_generator gen = Ok v → ∃ b, v = VBool b.
Proof.
  induction gen as [|item gen IH]; simpl.
  - intros [= <-]. eauto.
  - destruct item as [w|e]; [|discriminate]. simpl.
    destruct (truthy w); [exact IH|]. intros [= <-]. eauto.
Qed.

(** X10. A tree whose root is a [BoolOp] or a [Compare] evaluates to a
    boolean whenever it evaluates: the row is kept exactly when that boolean
    is true. *)
Theorem condition_evaluates_to_bool (tree : ast.expr) (row : Row)
    (v : object) :
  match tree with
  | ast.BoolOp _ _ | ast.Compare _ _ _ => True
  | _ => False
  end →
  eval_expression tree row = Ok v →
  v = VBool (matches tree row).
Proof.
  intros Hroot Hv. unfold matches. rewrite Hv.
  destruct tree as [op values|left_ ops_ comparators| | | | | | | |];
    try contradiction; simpl in Hv.
  - destruct (star_args _) as [args|e]; [|discriminate]. simpl in Hv.
    injection Hv as <-. destruct op; reflexivity.
  - destruct (eval_expression left_ row) as [lv|e]; [|discriminate].
    simpl in Hv. apply all_generator_bool in Hv as [b ->]. reflexivity.
Qed.

Lemma condition_evaluates_to_bool_witness :
  eval_expression chain_1_3_2 ∅ = Ok (VBool (matches chain_1_3_2 ∅)).
Proof.
  refine (eq_trans _ (f_equal Ok (condition_evaluates_to_bool chain_1_3_2 ∅
                                    (VBool true) I _))).
  - vm_compute; reflexivity.
  - vm_compute; reflexivity.
Defined.

Lemma star_args_app {A} (gen gen' : generator A) :
  star_args (gen ++ gen')
  = (args ← star_args gen; args' ← star_args gen'; Ok (args ++ args')%list).
Proof.
  induction gen as [|item gen IH]; simpl.
  - destruct (star_args gen'); reflexivity.
  - destruct item as [a|e]; [|reflexivity]. simpl. rewrite IH.
    destruct (star_args gen) as [args|e]; [|reflexivity]. simpl.
    destruct (star_args gen') as [args'|e]; reflexivity.
Qed.

Lemma eval_boolop (row : Row) (op : ast.boolop) (values : list ast.expr) :
  eval_expression (ast.BoolOp op values) row
  = (args ← star_args (map (fun value => eval_expression value row) values);
     Ok (ops_bool op args)).
Proof. reflexivity. Qed.

Lemma star_args_cons {A} (item : result A) (gen : generator A) :
  star_args (item :: gen)
  = (a ← item; args ← star_args gen; Ok (a :: args)).
Proof. reflexivity. Qed.

(** X11. Parentheses around a group of operands of the same combinator
    change nothing: a [BoolOp] among the children of a [BoolOp] with the
    same operator can be replaced by its own children, for the value and for
    the exception raised alike. *)
Theorem boolop_nesting_flattens (row : Row) (op : ast.boolop)
    (before inner after : list ast.expr) :
  eval_expression (ast.BoolOp op (before ++ ast.BoolOp op inner :: after)) row
  = eval_expression (ast.BoolOp op (before ++ inner ++ after)) row.
Proof.
  rewrite !eval_boolop, !map_app, map_cons, !star_args_app, star_args_cons,
    eval_boolop.
  destruct (star_args (map _ before)) as [xs|e]; [|reflexivity].
  destruct (star_args (map _ inner)) as [ys|e]; [|reflexivity].
  destruct (star_args (map _ after)) as [zs|e]; [|reflexivity].
  simpl. f_equal. destruct op; simpl; unfold py_all, py_any; f_equal.
  - rewrite !forallb_app. simpl. reflexivity.
  - rewrite !existsb_app. simpl. reflexivity.
Qed.

(** X12. The operators [is], [is not], [in] and [not in] parse, but [ops]
    has no entry for them: a chain whose left operand evaluates raises a
    [KeyError] at the first pair with such an operator, before the right side
    of the pair is evaluated. *)
Theorem missing_operator_raises_key_error (row : Row) (left_ : ast.expr)
    (lv : object) (op : ast.cmpop) (ops_ : list ast.cmpop)
    (right_ : ast.expr) (comparators : list ast.expr) :
  eval_expression left_ row = Ok lv →
  missing_op op = true →
  eval_expression (ast.Compare left_ (op :: ops_) (right_ :: comparators)) row
  = Raise (interp_error KeyError).
Proof.
  intros Hleft Hop. simpl. rewrite Hleft. simpl.
  destruct op; try discriminate Hop; reflexivity.
Qed.

(** X13. A chain stops at its first false pair: when the first pair compares
    to a false object the chain is false, and nothing after that pair is
    evaluated, be it a node that would raise. *)
Theorem chain_stops_at_false_pair (row : Row) (left_ right_ : ast.expr)
    (lv rv v : object) (op : ast.cmpop)
    (f : object → object → result object)
    (ops_ : list ast.cmpop) (comparators : list ast.expr) :
  eval_expression left_ row = Ok lv →
  eval_expression right_ row = Ok rv →
  ops op = Ok f →
  f lv rv = Ok v →
  truthy v = false →
  eval_expression (ast.Compare left_ (op :: ops_) (right_ :: comparators)) row
  = Ok (VBool false).
Proof.
  intros Hleft Hright Hop Hf Hv. simpl.
  rewrite Hleft, Hright, Hop. simpl. rewrite Hf. simpl. rewrite Hv.
  reflexivity.
Qed.

Lemma chain_stops_at_false_pair_witness :
  eval_expression
    (ast.Compare (ast.Name "age") [ast.Lt; ast.Lt]
       [ast.Constant (VInt 18); ast.Name "retired"])
    {["age" := "40"]} = Ok (VBool false) ∧
  eval_expression (ast.Name "retired") {["age" := "40"]}
  = Raise (interp_error TypeError).
Proof.
  split; [|vm_compute; reflexivity].
  refine (chain_stops_at_false_pair {["age" := "40"]} (ast.Name "age")
            (ast.Constant (VInt 18)) (VInt 40) (VInt 18) (VBool false)
            ast.Lt operator_lt [ast.Lt] [ast.Name "retired"] _ _ _ _ _).
  - vm_compute; reflexivity.
  - reflexivity.
  - reflexivity.
  - vm_compute; reflexivity.
  - reflexivity.
Defined.

Lemma map_eval_agree (row row' : Row) (children : list ast.expr) :
  Forall (fun e =>
            (∀ id, id ∈ fields e → row !! id = row' !! id) →
            eval_expression e row = eval_expression e row') children →
  (∀ id, id ∈ concat (map fields children) → row !! id = row' !! id) →
  map (fun e => eval_expression e row) children
  = map (fun e => eval_expression e row') children.
Proof.
  induction 1 as [|child children Hchild _ IH]; intros Hagree;
    [reflexivity|].
  simpl in *. f_equal.
  - apply Hchild. intros id Hid. apply Hagree, elem_of_app. left. exact Hid.
  - apply IH. intros id Hid. apply Hagree, elem_of_app. right. exact Hid.
Qed.

(** X14. The evaluation of a tree looks at the fields the tree names and at
    nothing else of the row: two rows with the same texts for these fields,
    or both without them, give the same value or the same exception. *)
Theorem evaluation_reads_named_fields_only (tree : ast.expr)
    (row row' : Row) :
  (∀ id, id ∈ fields tree → row !! id = row' !! id) →
  eval_expression tree row = eval_expression tree row'.
Proof.
  induction tree as
    [op values IH|left_ ops_ comparators IHleft IH|id|v|func args _ IH
    |l op r _ _|op e _|e attr _|e i _ _|cls] using expr_nested_ind;
    intros Hagree; try reflexivity.
  - rewrite !eval_boolop, (map_eval_agree row row' values IH Hagree).
    reflexivity.
  - simpl in *. rewrite IHleft.
    + rewrite (map_eval_agree row row' comparators IH); [reflexivity|].
      intros id Hid. apply Hagree, elem_of_app. right. exact Hid.
    + intros id Hid. apply Hagree, elem_of_app. left. exact Hid.
  - simpl. unfold row_get. rewrite (Hagree id); [reflexivity|].
    apply list_elem_of_singleton. reflexivity.
  - destruct func; try reflexivity. simpl.
    destruct (String.eqb _ _); [|reflexivity].
    destruct args as [|arg args]; [reflexivity|].
    inversion IH as [|? ? Harg _]; subst.
    rewrite (Harg Hagree). reflexivity.
Qed.

Lemma evaluation_reads_named_fields_only_witness :
  eval_expression long_name (<["age" := "40"]> {["name" := "Alexandria M"]})
  = eval_expression long_name {["name" := "Alexandria M"]}.
Proof.
  refine (evaluation_reads_named_fields_only long_name _ _ _).
  intros id Hid. vm_compute in Hid.
  apply list_elem_of_singleton in Hid as ->. vm_compute. reflexivity.
Defined.

Lemma eval_field (row : Row) (id s : string) :
  row !! id = Some s →
  eval_expression (ast.Name id) row
  = Ok match int_of_text s with
       | Some z => VInt z
       | None =>
           match float_of_text s with
           | Some f => VFloat f
           | None => VStr s
           end
       end.
Proof.
  intros Hs. simpl. unfold row_get, convert_value. rewrite Hs. simpl.
  destruct (int_of_text s); [reflexivity|]. simpl.
  destruct (float_of_text s); reflexivity.
Qed.

(** X15. A field whose text reads as an integer is compared as that
    integer: it equals the integer literal of the same value, and it equals
    no string literal, not even the one that spells its own text. *)
Theorem integer_text_compares_as_integer (row : Row) (id s : string)
    (z : Z) (t : string) :
  row !! id = Some s →
  int_of_text s = Some z →
  eval_expression
    (ast.Compare (ast.Name id) [ast.Eq] [ast.Constant (VInt z)]) row
  = Ok (VBool true) ∧
  eval_expression
    (ast.Compare (ast.Name id) [ast.Eq] [ast.Constant (VStr t)]) row
  = Ok (VBool false).
Proof.
  intros Hs Hz.
  pose proof (eval_field row id s Hs) as Hfield. rewrite Hz in Hfield.
  split.
  - change (eval_expression
              (ast.Compare (ast.Name id) [ast.Eq] [ast.Constant (VInt z)]) row)
      with (left ← eval_expression (ast.Name id) row;
            all_generator
              [f ← ops ast.Eq; r ← Ok (VInt z); f left r]).
    rewrite Hfield. simpl. unfold operator_eq. simpl.
    rewrite Z.compare_refl. reflexivity.
  - change (eval_expression
              (ast.Compare (ast.Name id) [ast.Eq] [ast.Constant (VStr t)]) row)
      with (left ← eval_expression (ast.Name id) row;
            all_generator
              [f ← ops ast.Eq; r ← Ok (VStr t); f left r]).
    rewrite Hfield. reflexivity.
Qed.

Lemma integer_text_compares_as_integer_witness :
  eval_expression
    (ast.Compare (ast.Name "zip") [ast.Eq] [ast.Constant (VInt 2134)])
    {["zip" := "02134"]} = Ok (VBool true) ∧
  eval_expression
    (ast.Compare (ast.Name "zip") [ast.Eq] [ast.Constant (VStr "02134")])
    {["zip" := "02134"]} = Ok (VBool false).
Proof.
  refine (integer_text_compares_as_integer {["zip" := "02134"]} "zip" "02134"
            2134 "02134" _ _).
  - vm_compute; reflexivity.
  - vm_compute; reflexivity.
Defined.

(** ** Trees that evaluate without an exception *)

Lemma ops_apply_total (op : ast.cmpop) (a b : object) :
  missing_op op = false →
  (order_op op = true → kind_of a = kind_of b ∧ kind_of a ≠ KNone) →
  ∃ f c, ops op = Ok f ∧ f a b = Ok (VBool c).
Proof.
  intros Hmissing Horder.
  destruct op; try discriminate Hmissing; simpl in Horder;
    try (destruct (Horder eq_refl) as [Hkind Hnone]);
    destruct a, b; simpl in *;
    try contradiction; try discriminate;
    eexists _, _; (split; reflexivity).
Qed.

Section Checked.
Variable schema : gmap string kind.
Variable row : Row.
Hypothesis Hconforms : conforms schema row.

Let sound (e : ast.expr) : Prop :=
  ∀ k, check schema e = Some k →
       ∃ v, eval_expression e row = Ok v ∧ kind_of v = k.

Lemma checked_children_evaluate (values : list ast.expr) :
  Forall sound values →
  forallb (fun v => bool_decide (is_Some (check schema v))) values = true →
  ∃ args,
    star_args (map (fun value => eval_expression value row) values) = Ok args.
Proof.
  induction 1 as [|child values Hchild _ IH]; simpl; [eauto|].
  intros [Hc Hrest]%andb_true_iff.
  apply bool_decide_eq_true in Hc as [k Hk].
  destruct (Hchild k Hk) as (v & Hv & _).
  destruct (IH Hrest) as [args Hargs].
  exists (v :: args). rewrite Hv, Hargs. reflexivity.
Qed.

Lemma checked_pairs_evaluate (lv : object) (comparators : list ast.expr) :
  Forall sound comparators →
  ∀ ops_,
    forallb (fun '(op, kc) => pair_checks (kind_of lv) op kc)
      (combine ops_ (map (check schema) comparators)) = true →
    ∃ b,
      all_generator
        (map (fun '(op, right_) => f ← ops op; r ← right_; f lv r)
           (combine ops_
              (map (fun right => eval_expression right row) comparators)))
      = Ok (VBool b).
Proof.
  induction 1 as [|c comparators Hc _ IH]; intros [|op ops_]; simpl;
    try (intros _; exists true; reflexivity).
  intros [Hpair Hrest]%andb_true_iff.
  unfold pair_checks in Hpair.
  destruct (check schema c) as [k|] eqn:Hk; [|discriminate].
  apply andb_true_iff in Hpair as [Hmissing Horder].
  apply negb_true_iff in Hmissing.
  destruct (Hc k Hk) as (rv & Hrv & Hkind).
  destruct (ops_apply_total op lv rv Hmissing) as (f & b & Hf & Hb).
  { intros Hop. rewrite Hop in Horder. simpl in Horder.
    apply andb_true_iff in Horder as [Heq Hnone].
    apply bool_decide_eq_true in Heq. apply bool_decide_eq_true in Hnone.
    rewrite Hkind. split; assumption. }
  rewrite Hf, Hrv. simpl. rewrite Hb. simpl.
  destruct b; [apply (IH ops_ Hrest)|exists false; reflexivity].
Qed.

Lemma checked_tree_sound (tree : ast.expr) : sound tree.
Proof.
  induction tree as
    [op values IH|left_ ops_ comparators IHleft IH|id|v|func args _ IH
    |l op r _ _|op e _|e attr _|e i _ _|cls] using expr_nested_ind;
    intros k Hk; simpl in Hk; try discriminate.
  - destruct (forallb _ values) eqn:Hall; [|discriminate].
    injection Hk as <-.
    destruct (checked_children_evaluate values IH Hall) as [args Hargs].
    exists (ops_bool op args). rewrite eval_boolop, Hargs.
    split; [reflexivity|]. destruct op; reflexivity.
  - destruct (check schema left_) as [k0|] eqn:Hleft; [|discriminate].
    destruct (forallb _ _) eqn:Hall; [|discriminate].
    injection Hk as <-.
    destruct (IHleft k0 Hleft) as (lv & Hlv & Hkind). subst k0.
    destruct (checked_pairs_evaluate lv comparators IH ops_ Hall) as [b Hb].
    exists (VBool b). simpl. rewrite Hlv. simpl. rewrite Hb.
    split; reflexivity.
  - destruct (Hconforms id k Hk) as (s & Hs & Hkind).
    rewrite (eval_field row id s Hs). eexists. split; [reflexivity|].
    unfold text_kind in Hkind.
    destruct (int_of_text s); [exact Hkind|].
    destruct (float_of_text s); exact Hkind.
  - injection Hk as <-. exists v. split; reflexivity.
  - destruct func; try discriminate.
    destruct args as [|arg args]; [discriminate|].
    destruct (String.eqb id "len") eqn:Hid; [|discriminate].
    destruct (check schema arg) as [[| |]|] eqn:Harg; try discriminate.
    injection Hk as <-.
    inversion IH as [|? ? Hsound _]; subst.
    destruct (Hsound KString Harg) as (v & Hv & Hkind).
    destruct v; try discriminate Hkind.
    eexists. simpl. rewrite Hid, Hv. split; reflexivity.
Qed.
End Checked.

(** X16. A tree that passes [check] for a schema never raises on a row that
    conforms to the schema: every node is one of the five variants, every
    field it names is in the row, [len] is applied to strings and the order
    operators to two numbers or two strings; its value is of the kind
    [check] gives. *)
Theorem checked_tree_evaluates (schema : gmap string kind)
    (tree : ast.expr) (k : kind) (row : Row) :
  check schema tree = Some k →
  conforms schema row →
  ∃ v, eval_expression tree row = Ok v ∧ kind_of v = k.
Proof.
  intros Hcheck Hconforms.
  exact (checked_tree_sound schema row Hconforms tree k Hcheck).
Qed.

Lemma doctor_conforms (name specialty age salary years : string) :
  text_kind name = KString →
  text_kind specialty = KString →
  text_kind age = KNumber →
  text_kind salary = KNumber →
  text_kind years = KNumber →
  conforms doctors_schema (doctor name specialty age salary years).
Proof.
  intros Hname Hspecialty Hage Hsalary Hyears id k Hk.
  unfold doctors_schema, doctor in *.
  repeat match type of Hk with
  | <[?key := _]> _ !! id = Some _ =>
      let Hne := fresh "Hne" in
      destruct (decide (key = id)) as [<-|Hne];
      [rewrite lookup_insert_eq in Hk; injection Hk as <-;
       eexists; split; [by simplify_map_eq|assumption]
      |rewrite lookup_insert_ne in Hk by exact Hne]
  end.
  destruct (decide ("years_of_experience" = id)) as [<-|Hlast].
  - rewrite lookup_singleton_eq in Hk. injection Hk as <-.
    eexists; split; [by simplify_map_eq|assumption].
  - rewrite lookup_singleton_ne in Hk by exact Hlast. discriminate.
Qed.

Lemma checked_tree_evaluates_witness :
  check doctors_schema
    (ast.BoolOp ast.And
       [ast.Compare (ast.Call (ast.Name "len") [ast.Name "name"]) [ast.Gt]
          [ast.Constant (VInt 10)];
        ast.Compare (ast.Name "salary") [ast.GtE; ast.LtE]
          [ast.Constant (VInt 130000); ast.Constant (VInt 150000)]])
  = Some KNumber ∧
  ∃ v, eval_expression
         (ast.BoolOp ast.And
            [ast.Compare (ast.Call (ast.Name "len") [ast.Name "name"])
               [ast.Gt] [ast.Constant (VInt 10)];
             ast.Compare (ast.Name "salary") [ast.GtE; ast.LtE]
               [ast.Constant (VInt 130000); ast.Constant (VInt 150000)]])
         (doctor "Alexandria M" "Neurology" "40" "1.4e5" "12") = Ok v ∧
       kind_of v = KNumber.
Proof.
  split; [vm_compute; reflexivity|].
  refine (checked_tree_evaluates doctors_schema _ KNumber
            (doctor "Alexandria M" "Neurology" "40" "1.4e5" "12") _ _).
  - vm_compute; reflexivity.
  - apply doctor_conforms; vm_compute; reflexivity.
Defined.

(** ** Saving and the batch *)

Lemma cells_of_same_fields (fieldnames : gset string) (rowdict : Row) :
  dom rowdict = fieldnames → cells_of fieldnames rowdict = rowdict.
Proof.
  intros <-. apply map_eq. intros key. apply option_eq. intros cell.
  unfold cells_of. rewrite lookup_set_to_map.
  - split.
    + intros (key' & Hin & [= -> Hcell]).
      apply elem_of_dom in Hin as [cell' Hcell'].
      rewrite Hcell' in *. simpl in Hcell. congruence.
    + intros Hcell. exists key. split.
      * apply elem_of_dom. eauto.
      * rewrite Hcell. reflexivity.
  - intros key1 key2 _ _ Heq. exact Heq.
Qed.

Lemma writerows_same_fields (fieldnames : gset string) (rowdicts : list Row) :
  Forall (fun rowdict => dom rowdict = fieldnames) rowdicts →
  writerows fieldnames rowdicts = (WriteRow <$> rowdicts, None).
Proof.
  induction 1 as [|rowdict rowdicts Hdom _ IH]; [reflexivity|].
  simpl. rewrite IH, (cells_of_same_fields _ _ Hdom).
  destruct (decide (dom rowdict ⊆ fieldnames)) as [_|Hno]; [reflexivity|].
  exfalso. apply Hno. rewrite Hdom. reflexivity.
Qed.

Lemma save_same_fields (first : Row) (others : list Row)
    (output_file : string) :
  dirname output_file ≠ EmptyString →
  Forall (fun rowdict => dom rowdict = dom first) others →
  save_filtered_data (first :: others) output_file
  = ([MakeDirs (dirname output_file); OpenWrite output_file;
      WriteHeader (dom first)]
     ++ (WriteRow <$> first :: others)
     ++ [Print ("Data stored for " +:+ output_file +:+ ".")], None)%list.
Proof.
  intros Hdir Hdom. unfold save_filtered_data.
  destruct (String.eqb_spec (dirname output_file) EmptyString) as [Heq|_];
    [contradiction|].
  rewrite (writerows_same_fields (dom first) (first :: others));
    [reflexivity|].
  constructor; [reflexivity|exact Hdom].
Qed.

(** X17. Rows of texts (the rows of records that have as many cells as the
    header) that all have the fields of the first one are saved as they are:
    the directory of the output file is made, the file is opened, the header
    holds the fields of the first row, every row is written with its own
    texts, in order, and the message "Data stored" comes last. *)
Theorem save_writes_rows_in_order (first : Row) (others : list Row)
    (output_file : string) :
  dirname output_file ≠ EmptyString →
  Forall (fun rowdict => dom rowdict = dom first) others →
  save_filtered_data (first :: others) output_file
  = ([MakeDirs (dirname output_file); OpenWrite output_file;
      WriteHeader (dom first)]
     ++ (WriteRow <$> first :: others)
     ++ [Print ("Data stored for " +:+ output_file +:+ ".")], None)%list.
Proof. apply save_same_fields. Qed.

Lemma save_writes_rows_in_order_witness :
  save_filtered_data [numbered 0; numbered 3] "data/hits.csv"
  = ([MakeDirs "data"; OpenWrite "data/hits.csv";
      WriteHeader (dom (numbered 0));
      WriteRow (numbered 0); WriteRow (numbered 3);
      Print "Data stored for data/hits.csv."], None).
Proof.
  refine (eq_trans (save_writes_rows_in_order (numbered 0) [numbered 3]
                      "data/hits.csv" _ _) _).
  - vm_compute. discriminate.
  - repeat constructor; vm_compute; reflexivity.
  - vm_compute; reflexivity.
Defined.

Lemma drop_to_slash_none (cs : list ascii) :
  Forall (fun c => is_slash c = false) cs → drop_to_slash cs = [].
Proof.
  induction 1 as [|c cs Hc _ IH]; [reflexivity|].
  simpl. rewrite Hc. exact IH.
Qed.

(** X18. An output path without a slash has the empty directory name, which
    [os.makedirs] refuses: saving rows under such a path raises
    [FileNotFoundError] before anything is opened, written or printed. *)
Theorem save_without_directory_fails (first : Row) (others : list Row)
    (output_file : string) :
  Forall (fun c => is_slash c = false) (list_ascii_of_string output_file) →
  save_filtered_data (first :: others) output_file
  = ([], Some (FileNotFoundError EmptyString)).
Proof.
  intros Hno. unfold save_filtered_data.
  assert (Hdir : dirname output_file = EmptyString).
  { unfold dirname. rewrite drop_to_slash_none; [reflexivity|].
    apply Forall_rev, Hno. }
  rewrite Hdir. reflexivity.
Qed.

Lemma save_without_directory_fails_witness :
  save_filtered_data [numbered 0] "hits.csv"
  = ([], Some (FileNotFoundError EmptyString)).
Proof.
  refine (save_without_directory_fails (numbered 0) [] "hits.csv" _).
  repeat constructor.
Defined.

Lemma run_filters_app (reader : list Row) (batch batch' : list filter_data) :
  run_filters reader (batch ++ batch')
  = match run_filters reader batch with
    | (effects, Some f) => (effects, Some f)
    | (effects, None) =>
        let '(effects', err) := run_filters reader batch' in
        ((effects ++ effects')%list, err)
    end.
Proof.
  induction batch as [|entry batch IH]; simpl.
  - destruct (run_filters reader batch'); reflexivity.
  - destruct (read_csv_with_filter reader (criteria entry) 1 50)
      as [filtered_data|e]; [|reflexivity].
    destruct (save_filtered_data _ _) as [effects [f|]]; [reflexivity|].
    rewrite IH. destruct (run_filters reader batch) as [effects1 [f|]].
    + reflexivity.
    + destruct (run_filters reader batch') as [effects2 err].
      rewrite app_assoc. reflexivity.
Qed.

(** X19. An exception stops the batch: when the filters before an entry ran
    to their end and reading with the criteria of the entry raises, for a
    text that does not parse or for a row that does not evaluate, the run
    ends there with that exception; nothing is saved for the entry, and the
    entries after it are never run. *)
Theorem batch_stops_at_first_exception (reader : list Row)
    (done : list filter_data) (entry : filter_data)
    (rest : list filter_data) (effects : list effect) (e : exn) :
  run_filters reader done = (effects, None) →
  read_csv_with_filter reader (criteria entry) 1 50 = Raise e →
  run_filters reader (done ++ entry :: rest) = (effects, Some (PyRaise e)).
Proof.
  intros Hdone Hraise. rewrite run_filters_app, Hdone. simpl.
  rewrite Hraise. rewrite app_nil_r. reflexivity.
Qed.

(** X20. When no row among the first 50 matches the criteria of an entry,
    and none raises, the entry leaves the notice "No data matched" and
    nothing else: no directory is made and no file is opened; the batch goes
    on with the next entry. *)
Theorem no_match_prints_notice (reader : list Row) (entry : filter_data)
    (batch : list filter_data) (tree : ast.expr) :
  parse_filter_expression (criteria entry) = Ok tree →
  Forall (fun row => ∃ v, eval_expression tree row = Ok v ∧ truthy v = false)
    (take 50 reader) →
  run_filters reader (entry :: batch)
  = (Print ("No data matched the filter criteria for "
            +:+ path_join output_directory (output_file entry) +:+ ".")
       :: (run_filters reader batch).1,
     (run_filters reader batch).2).
Proof.
  intros Hparse Hnone. simpl.
  rewrite read_csv_with_filter_collect, Hparse. simpl.
  change (scanned_rows reader 1 50) with (take 50 reader).
  assert (Hrows : filter_rows (take 50 reader) tree = ([], None)).
  { induction Hnone as [|row rows (v & Hv & Ht) _ IH]; [reflexivity|].
    simpl. rewrite Hv, IH, Ht. reflexivity. }
  rewrite Hrows. simpl. destruct (run_filters reader batch); reflexivity.
Qed.

Lemma run_filters_first_rows (reader reader' : list Row)
    (batch : list filter_data) :
  take 50 reader = take 50 reader' →
  run_filters reader batch = run_filters reader' batch.
Proof.
  intros Htake. induction batch as [|entry batch IH]; [reflexivity|].
  simpl. rewrite IH, !read_csv_with_filter_collect.
  change (scanned_rows reader 1 50) with (take 50 reader).
  change (scanned_rows reader' 1 50) with (take 50 reader').
  rewrite Htake. reflexivity.
Qed.

(** X21. The script looks at the first 50 rows of [doctors.csv] and at no
    other: two files with the same first 50 rows give the same calls, the
    same written rows and the same end. *)
Theorem script_reads_first_fifty_rows (reader reader' : list Row) :
  take 50 reader = take 50 reader' →
  script reader = script reader'.
Proof. apply run_filters_first_rows. Qed.

Lemma run_filters_completes (reader : list Row) (fieldnames : gset string)
    (batch : list filter_data) :
  Forall (conforms doctors_schema) (take 50 reader) →
  Forall (fun row => dom row = fieldnames) (take 50 reader) →
  Forall (fun entry =>
            (∃ tree k, parse_filter_expression (criteria entry) = Ok tree ∧
                       check doctors_schema tree = Some k) ∧
            dirname (path_join output_directory (output_file entry))
            ≠ EmptyString) batch →
  (run_filters reader batch).2 = None.
Proof.
  intros Hconforms Hdom.
  induction 1 as [|entry batch [(tree & k & Hparse & Hcheck) Hdir] _ IH];
    [reflexivity|].
  simpl.
  rewrite (read_csv_with_filter_scanned reader (criteria entry) tree 1 50 Hparse).
  - change (scanned_rows reader 1 50) with (take 50 reader).
    assert (Hkept : Forall (fun row => dom row = fieldnames)
                      (List.filter (matches tree) (take 50 reader))).
    { apply Forall_forall. intros row [Hin _]%elem_of_filter_matches.
      exact (proj1 (Forall_forall _ _) Hdom row Hin). }
    destruct (List.filter (matches tree) (take 50 reader))
      as [|first others].
    + simpl. destruct (run_filters reader batch). exact IH.
    + inversion Hkept as [|? ? Hfirst Hothers]; subst.
      rewrite (save_same_fields first others _ Hdir Hothers).
      destruct (run_filters reader batch). exact IH.
  - change (scanned_rows reader 1 50) with (take 50 reader).
    apply Forall_forall. intros row Hin.
    destruct (checked_tree_sound doctors_schema row
                (proj1 (Forall_forall _ _) Hconforms row Hin) tree k Hcheck)
      as (v & Hv & _).
    exists v. exact Hv.
Qed.

(** X22. On a well-formed file the script runs to its end without an
    exception: when each of the first 50 rows has the five fields the
    filters use, with numbers for [age], [salary] and
    [years_of_experience] and texts that are no numbers for [name] and
    [specialty], and all these rows have the same fields, every one of the
    five filters compiles, evaluates on every row and is saved or
    reported. *)
Theorem script_completes_on_conforming_file (reader : list Row)
    (fieldnames : gset string) :
  Forall (conforms doctors_schema) (take 50 reader) →
  Forall (fun row => dom row = fieldnames) (take 50 reader) →
  (script reader).2 = None.
Proof.
  intros Hconforms Hdom.
  apply (run_filters_completes reader fieldnames filters Hconforms Hdom).
  unfold filters.
  repeat (constructor;
          [split; [eexists _, _; split; vm_compute; reflexivity
                  |vm_compute; discriminate]|]).
  constructor.
Qed.

End Model.

(** ** Closed examples

    The examples below fix [python] to [ast.no_answer]; the model settles
    every text of theirs by itself. *)

(** C3, counterexample. The text [age + 1 > 5] holds an arithmetic node,
    and compiling it raises nothing: the parser returns its tree. *)
Lemma arithmetic_text_compiles :
  parse_filter_expression ast.no_answer "age + 1 > 5" = Ok age_plus_one ∧
  outside_variants
    (ast.BinOp (ast.Name "age") ast.Add (ast.Constant (VInt 1))) = true ∧
  ¬ (∃ e, parse_filter_expression ast.no_answer "age + 1 > 5" = Raise e).
Proof.
  split; [vm_compute; reflexivity|]. split; [reflexivity|].
  intros [e He]. vm_compute in He. discriminate He.
Qed.

Lemma unsupported_node_rejected_when_reached_witness :
  ast.parse ast.no_answer "(age >= 35) and (age * 2 > 5)"
  = Some (ast.BoolOp ast.And
            [ast.Compare (ast.Name "age") [ast.GtE] [ast.Constant (VInt 35)];
             ast.Compare
               (ast.BinOp (ast.Name "age") ast.Mult (ast.Constant (VInt 2)))
               [ast.Gt] [ast.Constant (VInt 5)]]) ∧
  ∃ e, eval_expression
         (ast.BoolOp ast.And
            [ast.Compare (ast.Name "age") [ast.GtE] [ast.Constant (VInt 35)];
             ast.Compare
               (ast.BinOp (ast.Name "age") ast.Mult (ast.Constant (VInt 2)))
               [ast.Gt] [ast.Constant (VInt 5)]])
         {["age" := "20"]} = Raise e ∧
       (e = unsupported
              (ast.BinOp (ast.Name "age") ast.Mult (ast.Constant (VInt 2)))
        ∨ e = interp_error AttributeError).
Proof.
  split; [vm_compute; reflexivity|].
  refine (proj1 (proj2
    (unsupported_node_rejected_when_reached ast.no_answer
       "(age >= 35) and (age * 2 > 5)" _
       (ast.BinOp (ast.Name "age") ast.Mult (ast.Constant (VInt 2)))
       {["age" := "20"]} _ _ _))).
  - vm_compute; reflexivity.
  - apply (reaches_boolop _ ast.And
             [ast.Compare (ast.Name "age") [ast.GtE] [ast.Constant (VInt 35)]]
             _ []).
    + constructor; [|constructor]. exists (VBool false). vm_compute; reflexivity.
    + apply reaches_left. apply reaches_here.
  - reflexivity.
Defined.

(** C6, counterexample. With [name] holding the text [Bob], the comparison
    [name == 5] sets a string against a number and raises nothing: it
    answers false. *)
Lemma equality_across_kinds_does_not_raise :
  eval_expression (ast.Name "name") {["name" := "Bob"]} = Ok (VStr "Bob") ∧
  kind_of (VStr "Bob") ≠ kind_of (VInt 5) ∧
  evaluate_text ast.no_answer "name == 5" {["name" := "Bob"]} = Ok (VBool false) ∧
  ¬ (∃ e, evaluate_text ast.no_answer "name == 5" {["name" := "Bob"]} = Raise e).
Proof.
  split; [vm_compute; reflexivity|]. split; [discriminate|].
  split; [vm_compute; reflexivity|].
  intros [e He]. vm_compute in He. discriminate He.
Qed.

Lemma comparison_across_kinds_witness :
  eval_expression (ast.Name "age") {["age" := "40"]} = Ok (VInt 40) ∧
  eval_expression (ast.Constant (VStr "forty")) {["age" := "40"]}
    = Ok (VStr "forty") ∧
  kind_of (VInt 40) ≠ kind_of (VStr "forty") ∧
  order_op ast.GtE = true ∧
  eval_expression
    (ast.Compare (ast.Name "age") [ast.GtE] [ast.Constant (VStr "forty")])
    {["age" := "40"]} = Raise (interp_error TypeError).
Proof.
  split; [vm_compute; reflexivity|]. split; [reflexivity|].
  split; [discriminate|]. split; [reflexivity|].
  refine (proj1 (comparison_across_kinds ast.no_answer {["age" := "40"]} (ast.Name "age")
                   (ast.Constant (VStr "forty")) ast.GtE [] []
                   (VInt 40) (VStr "forty") _ _ _) _).
  - vm_compute; reflexivity.
  - reflexivity.
  - discriminate.
  - reflexivity.
Defined.

Lemma boolop_reduces_every_child_witness :
  Forall2 (fun child v => eval_expression child {["age" := "40"]} = Ok v)
    [ast.Compare (ast.Name "age") [ast.Lt] [ast.Constant (VInt 35)];
     ast.Compare (ast.Name "age") [ast.LtE] [ast.Constant (VInt 45)]]
    [VBool false; VBool true] ∧
  eval_expression
    (ast.BoolOp ast.Or
       [ast.Compare (ast.Name "age") [ast.Lt] [ast.Constant (VInt 35)];
        ast.Compare (ast.Name "age") [ast.LtE] [ast.Constant (VInt 45)]])
    {["age" := "40"]} = Ok (VBool true) ∧
  eval_expression
    (ast.BoolOp ast.And
       [ast.Compare (ast.Name "age") [ast.Lt] [ast.Constant (VInt 35)];
        ast.Compare (ast.Name "age") [ast.Lt] [ast.Constant (VStr "x")]])
    {["age" := "40"]} = Raise (interp_error TypeError).
Proof.
  assert (H : Forall2
    (fun child v => eval_expression child {["age" := "40"]} = Ok v)
    [ast.Compare (ast.Name "age") [ast.Lt] [ast.Constant (VInt 35)];
     ast.Compare (ast.Name "age") [ast.LtE] [ast.Constant (VInt 45)]]
    [VBool false; VBool true]).
  { repeat constructor; vm_compute; reflexivity. }
  split; [exact H|]. split.
  - exact (proj1 (boolop_reduces_every_child ast.no_answer {["age" := "40"]} ast.Or _) _ H).
  - refine (proj1 (proj2 (proj2
      (boolop_reduces_every_child ast.no_answer {["age" := "40"]} ast.And _)))
      [ast.Compare (ast.Name "age") [ast.Lt] [ast.Constant (VInt 35)]]
      _ [] _ eq_refl _ _).
    + constructor; [|constructor]. exists (VBool false). vm_compute; reflexivity.
    + vm_compute; reflexivity.
Defined.

(** C9, counterexample. [Alexandria] has ten characters, and 10 > 10 is
    false: [len(name) > 10] does not hold on it. *)
Lemma alexandria_is_not_longer_than_ten :
  String.length "Alexandria" = 10 ∧
  evaluate_text ast.no_answer "len(name) > 10" {["name" := "Alexandria"]} = Ok (VBool false) ∧
  evaluate_text ast.no_answer "len(name) > 10" {["name" := "Alexandria"]} ≠ Ok (VBool true).
Proof.
  split; [reflexivity|]. split; [vm_compute; reflexivity|].
  vm_compute. discriminate.
Qed.

Lemma length_call_witness :
  eval_expression (ast.Name "name") {["name" := "Alexandri"]}
    = Ok (VStr "Alexandri") ∧
  eval_expression (ast.Call (ast.Name "len") [ast.Name "name"])
    {["name" := "Alexandri"]} = Ok (VInt 9) ∧
  eval_expression (ast.Call (ast.Name "len") [ast.Name "age"])
    {["age" := "40"]} = Raise (interp_error TypeError).
Proof.
  split; [vm_compute; reflexivity|]. split.
  - refine (proj1 (length_call ast.no_answer {["name" := "Alexandri"]} (ast.Name "name"))
              "Alexandri" _).
    vm_compute; reflexivity.
  - refine (proj1 (proj2 (length_call ast.no_answer {["age" := "40"]} (ast.Name "age")))
              (VInt 40) _ _).
    + vm_compute; reflexivity.
    + reflexivity.
Defined.

Lemma filtering_returns_matching_sublist_witness :
  parse_filter_expression ast.no_answer "hit == 1"
    = Ok (ast.Compare (ast.Name "hit") [ast.Eq] [ast.Constant (VInt 1)]) ∧
  ∃ rows,
    read_csv_with_filter ast.no_answer (numbered_rows 7) "hit == 1" 1 5 = Ok rows ∧
    rows = [numbered 0; numbered 3] ∧
    rows `sublist_of` numbered_rows 7.
Proof.
  split; [vm_compute; reflexivity|].
  destruct (proj2 (filtering_returns_matching_sublist ast.no_answer (numbered_rows 7)
                     "hit == 1"
                     (ast.Compare (ast.Name "hit") [ast.Eq]
                        [ast.Constant (VInt 1)]) 1 5
                     ltac:(vm_compute; reflexivity)))
    as (rows & Hrows & Heq & _ & Hsub & _).
  - repeat constructor; eexists; vm_compute; reflexivity.
  - exists rows. split; [exact Hrows|]. split; [|exact Hsub].
    rewrite Heq. vm_compute. reflexivity.
Defined.

Lemma read_csv_with_filter_window_only_witness :
  scanned_rows (numbered_rows 3) 1 2
  = scanned_rows [numbered 0; numbered 1; ∅] 1 2 ∧
  read_csv_with_filter ast.no_answer [numbered 0; numbered 1; ∅] "hit == 1" 1 2
  = Ok [numbered 0].
Proof.
  split; [vm_compute; reflexivity|].
  refine (eq_trans (eq_sym (read_csv_with_filter_window_only ast.no_answer (numbered_rows 3)
                              [numbered 0; numbered 1; ∅] "hit == 1" 1 2 _)) _).
  - vm_compute; reflexivity.
  - vm_compute; reflexivity.
Defined.

Lemma read_csv_with_filter_raises_witness :
  read_csv_with_filter ast.no_answer [numbered 0; {["id" := "1"]}; numbered 2] "hit == 1" 1 50
  = Raise (interp_error TypeError).
Proof.
  refine (read_csv_with_filter_raises ast.no_answer
            [numbered 0; {["id" := "1"]}; numbered 2] "hit == 1"
            (ast.Compare (ast.Name "hit") [ast.Eq] [ast.Constant (VInt 1)])
            1 50 [numbered 0] {["id" := "1"]} [numbered 2]
            (interp_error TypeError) _ _ _ _).
  - vm_compute; reflexivity.
  - vm_compute; reflexivity.
  - repeat constructor; eexists; vm_compute; reflexivity.
  - vm_compute; reflexivity.
Defined.

Lemma first_page_is_first_rows_witness :
  read_csv_with_filter ast.no_answer (numbered_rows 9) "hit == 1" 1 4
  = Ok [numbered 0; numbered 3].
Proof.
  refine (eq_trans (proj1 (first_page_is_first_rows ast.no_answer (numbered_rows 9)
    "hit == 1" (ast.Compare (ast.Name "hit") [ast.Eq] [ast.Constant (VInt 1)])
    4 _ _)) _).
  - vm_compute; reflexivity.
  - repeat constructor; eexists; vm_compute; reflexivity.
  - vm_compute; reflexivity.
Defined.

Lemma empty_page_is_empty_witness :
  read_csv_with_filter ast.no_answer [∅; ∅] "hit == 1" 4 10 = Ok [] ∧
  read_csv_with_filter ast.no_answer [∅; ∅] "hit == 1" 1 0 = Ok [].
Proof.
  split.
  - refine (empty_page_is_empty ast.no_answer [∅; ∅] "hit == 1"
      (ast.Compare (ast.Name "hit") [ast.Eq] [ast.Constant (VInt 1)]) 4 10 _ _).
    + vm_compute; reflexivity.
    + right. simpl. lia.
  - refine (empty_page_is_empty ast.no_answer [∅; ∅] "hit == 1"
      (ast.Compare (ast.Name "hit") [ast.Eq] [ast.Constant (VInt 1)]) 1 0 _ _).
    + vm_compute; reflexivity.
    + left. lia.
Defined.

Lemma every_row_is_on_its_page_witness :
  numbered 6 ∈ scanned_rows (numbered_rows 9) 3 3 ∧
  ∃ rows, read_csv_with_filter ast.no_answer (numbered_rows 9) "hit == 1" 3 3 = Ok rows ∧
          numbered 6 ∈ rows.
Proof.
  pose proof (every_row_is_on_its_page ast.no_answer (numbered_rows 9) "hit == 1"
    (ast.Compare (ast.Name "hit") [ast.Eq] [ast.Constant (VInt 1)])
    3 6 (numbered 6) ltac:(lia) ltac:(reflexivity)) as [Hin Hret].
  split; [exact Hin|].
  apply Hret.
  - vm_compute; reflexivity.
  - repeat constructor; eexists; vm_compute; reflexivity.
  - vm_compute; reflexivity.
Defined.

Lemma missing_operator_raises_key_error_witness :
  parse_filter_expression ast.no_answer "name in age + 1"
  = Ok (ast.Compare (ast.Name "name") [ast.In]
          [ast.BinOp (ast.Name "age") ast.Add (ast.Constant (VInt 1))]) ∧
  eval_expression
    (ast.Compare (ast.Name "name") [ast.In]
       [ast.BinOp (ast.Name "age") ast.Add (ast.Constant (VInt 1))])
    {["name" := "Bob"]} = Raise (interp_error KeyError).
Proof.
  split; [vm_compute; reflexivity|].
  refine (missing_operator_raises_key_error {["name" := "Bob"]}
            (ast.Name "name") (VStr "Bob") ast.In [] _ [] _ _).
  - vm_compute; reflexivity.
  - reflexivity.
Defined.

Lemma batch_stops_at_first_exception_witness :
  run_filters ast.no_answer [doctor "Alexandria M" "Neurology" "40" "140000" "12"]
    [FilterData "age > 60" "old.csv"; FilterData "age >" "broken.csv";
     FilterData "age > 0" "all.csv"]
  = ([Print "No data matched the filter criteria for data/old.csv."],
     Some (PyRaise (Exn ValueError "Invalid filter expression: age >"))).
Proof.
  refine (batch_stops_at_first_exception ast.no_answer
            [doctor "Alexandria M" "Neurology" "40" "140000" "12"]
            [FilterData "age > 60" "old.csv"] (FilterData "age >" "broken.csv")
            [FilterData "age > 0" "all.csv"] _ _ _ _).
  - vm_compute; reflexivity.
  - vm_compute; reflexivity.
Defined.

Lemma no_match_prints_notice_witness :
  run_filters ast.no_answer [doctor "Alexandria M" "Neurology" "40" "140000" "12"]
    [FilterData "age > 60" "old.csv"]
  = ([Print "No data matched the filter criteria for data/old.csv."], None).
Proof.
  refine (no_match_prints_notice ast.no_answer
            [doctor "Alexandria M" "Neurology" "40" "140000" "12"]
            (FilterData "age > 60" "old.csv") []
            (ast.Compare (ast.Name "age") [ast.Gt] [ast.Constant (VInt 60)])
            _ _).
  - vm_compute; reflexivity.
  - repeat constructor. exists (VBool false). split; vm_compute; reflexivity.
Defined.

Lemma script_reads_first_fifty_rows_witness :
  script ast.no_answer (replicate 50 ∅ ++ [numbered 0]) = script ast.no_answer (replicate 50 ∅).
Proof.
  refine (script_reads_first_fifty_rows ast.no_answer _ _ _).
  vm_compute; reflexivity.
Defined.

Lemma script_completes_on_conforming_file_witness :
  (script ast.no_answer [doctor "Alexandria M" "Neurology" "40" "140000" "12";
           doctor "Bob" "Pediatrics" "33" "98000.5" "5"]).2 = None.
Proof.
  refine (script_completes_on_conforming_file ast.no_answer _
            (dom (doctor "Bob" "Pediatrics" "33" "98000.5" "5")) _ _).
  - repeat constructor; apply doctor_conforms; vm_compute; reflexivity.
  - repeat constructor; vm_compute; reflexivity.
Defined.
